(** * dota-analysis: the match importer and the role scraper

    A shallow embedding of the two scripts of the repository,
    [main.py] (the match importer) and [webscrape.py] (the role scraper),
    and the properties of their specification.

    Python values are modelled as the scripts use them: [int] as [Z],
    [str] as the list of its code points, a [dict] as an association list
    in insertion order, an uncaught exception as the [Raise] branch of
    [result]. *)

From Stdlib Require Import List ZArith NArith Lia Bool String Ascii DecimalString.
Import ListNotations.

(** ** Python values *)

Module Py.

(** The exceptions the two scripts can die with. *)
Inductive exn : Type :=
| KeyError
| IndexError
| AttributeError.

Inductive result (A : Type) : Type :=
| Ok (a : A)
| Raise (e : exn).

Arguments Ok {A} a.
Arguments Raise {A} e.

Definition bind {A B : Type} (r : result A) (k : A -> result B) : result B :=
  match r with
  | Ok a => k a
  | Raise e => Raise e
  end.

(** [for x in l: s = body(s, x)], stopping at the first exception. *)
Fixpoint for_each {A S : Type} (body : S -> A -> result S) (l : list A) (s : S)
  : result S :=
  match l with
  | [] => Ok s
  | x :: xs => bind (body s x) (for_each body xs)
  end.

(** [l[i]] on a list. *)
Definition index {A : Type} (l : list A) (i : nat) : result A :=
  match nth_error l i with
  | Some a => Ok a
  | None => Raise IndexError
  end.

(** *** str: a sequence of code points *)

Definition pystr : Type := list N.

(** A literal made of ASCII characters only. *)
Definition str (s : string) : pystr :=
  List.map N_of_ascii (list_ascii_of_string s).

Definition str_eqb (s t : pystr) : bool :=
  if list_eq_dec N.eq_dec s t then true else false.

(** [s.startswith(sub)] *)
Fixpoint startswith (s sub : pystr) {struct sub} : bool :=
  match sub, s with
  | [], _ => true
  | _ :: _, [] => false
  | c :: sub', d :: s' => N.eqb c d && startswith s' sub'
  end.

(** [s.count(sub)]: the occurrences of [sub] met scanning left to right,
    an occurrence starting only after the previous one has ended.
    [skip] is the number of characters of the last occurrence still to pass. *)
Fixpoint count_from (sub s : pystr) (skip : nat) : Z :=
  match s with
  | [] => 0
  | _ :: t =>
      match skip with
      | S k => count_from sub t k
      | O => if startswith s sub
             then 1 + count_from sub t (List.length sub - 1)
             else count_from sub t 0
      end
  end%Z.

Definition str_count (s sub : pystr) : Z :=
  match sub with
  | [] => Z.of_nat (List.length s) + 1
  | _ :: _ => count_from sub s 0
  end.

(** [s.replace(old, new)] *)
Fixpoint replace_from (old new s : pystr) (skip : nat) : pystr :=
  match s with
  | [] => []
  | c :: t =>
      match skip with
      | S k => replace_from old new t k
      | O => if startswith s old
             then new ++ replace_from old new t (List.length old - 1)
             else c :: replace_from old new t 0
      end
  end.

Definition str_replace (s old new : pystr) : pystr :=
  match old with
  | [] => flat_map (fun c => new ++ [c]) s ++ new
  | _ :: _ => replace_from old new s 0
  end.

(** [c.isspace()]: the code points Python counts as whitespace. *)
Definition isspace (c : N) : bool :=
  (((9 <=? c) && (c <=? 13)) || ((28 <=? c) && (c <=? 32))
  || (c =? 133) || (c =? 160) || (c =? 5760)
  || ((8192 <=? c) && (c <=? 8202))
  || (c =? 8232) || (c =? 8233) || (c =? 8239) || (c =? 8287)
  || (c =? 12288))%N.

Fixpoint lstrip (s : pystr) : pystr :=
  match s with
  | [] => []
  | c :: t => if isspace c then lstrip t else s
  end.

Definition rstrip (s : pystr) : pystr := rev (lstrip (rev s)).

(** [s.strip()] *)
Definition str_strip (s : pystr) : pystr := rstrip (lstrip s).

(** *** dict: keys in insertion order *)

Section Dict.
Variables K V : Type.
Variable eqb : K -> K -> bool.

Definition dict : Type := list (K * V).

(** [d.get(k)] *)
Fixpoint get (d : dict) (k : K) : option V :=
  match d with
  | [] => None
  | (k', v) :: d' => if eqb k' k then Some v else get d' k
  end.

(** [k in d] *)
Definition contains (d : dict) (k : K) : bool :=
  match get d k with
  | Some _ => true
  | None => false
  end.

(** [d[k]] *)
Definition getitem (d : dict) (k : K) : result V :=
  match get d k with
  | Some v => Ok v
  | None => Raise KeyError
  end.

(** [d[k] = v]: a key already present keeps its place, a new one goes last. *)
Fixpoint set (d : dict) (k : K) (v : V) : dict :=
  match d with
  | [] => [(k, v)]
  | (k', v') :: d' => if eqb k' k then (k', v) :: d' else (k', v') :: set d' k v
  end.

(** [list(d)] *)
Definition keys (d : dict) : list K := List.map fst d.
End Dict.

Arguments get {K V} eqb d k.
Arguments contains {K V} eqb d k.
Arguments getitem {K V} eqb d k.
Arguments set {K V} eqb d k v.
Arguments keys {K V} d.

End Py.

Import Py.

Declare Scope py_scope.
Delimit Scope py_scope with py.
Notation "x <- e ;; k" := (bind e (fun x => k))
  (at level 61, e at next level, right associativity) : py_scope.
Open Scope py_scope.

(** ** The match importer ([main.py]) *)

Module MatchImporter.

(** A field the importer copies into the store without looking at it. *)
Inductive json : Type :=
| JNull
| JBool (b : bool)
| JInt (z : Z)
| JStr (s : pystr).

(** One entry of the match-history response, for an entry that has every
    field lines 31-35 read, an integer identifier and a boolean
    [radiant_win]. An entry that lacks a field ([KeyError] on lines 31-35)
    or whose [radiant_win] is null ([TypeError] on line 40, after its row
    is stored) is outside this type: the first loop is modelled on the
    responses on which it completes. *)
Record match_ : Type := {
  match_id : Z;
  player_slot : json;
  radiant_win : bool;
  duration : json;
  game_mode : json;
  lobby_type : json;
  hero_id : json;
  start_time : json;
  version : json;
  kills : json;
  deaths : json;
  assists : json;
  skill : json;
  average_rank : json;
  leaver_status : json;
  party_size : json
}.

(** One entry of [matchinfo["players"]], with its boolean [isRadiant] and
    its [hero_id]. *)
Record player : Type := {
  isRadiant : bool;
  player_hero_id : Z
}.

(** One entry of the hero catalog response: a JSON object. *)
Definition hero : Type := dict pystr json.

(** A row of the hero table. *)
Record hero_row : Type := {
  id : json;
  name : json;
  localized_name : json;
  primary_attr : json;
  attack_type : json
}.

(** The three tables of the store; a row is committed as soon as it is
    inserted, so the rows of a run that dies stay. *)
Record database : Type := {
  dotamatches : list (Z * match_);
  dotamatchesinfo : list (Z * Z * Z * Z * Z * Z);
  heroesinfo : list hero_row
}.

Definition wintype : list Z := [1; 0]%Z.

(** Lines 25-44, the body of [for match in matches]: the row is stored,
    then the side of the player is written to [matchdict], [True] for
    radiant. [radiant_win] is a [bool], which Python adds as 0 or 1. *)
Definition import_match (winnumber : Z)
    (st : database * dict Z bool) (m : match_) : database * dict Z bool :=
  let (db, matchdict) := st in
  let db := {| dotamatches := dotamatches db ++ [(winnumber, m)];
               dotamatchesinfo := dotamatchesinfo db;
               heroesinfo := heroesinfo db |} in
  if (winnumber + Z.b2z (radiant_win m) =? 1)%Z
  then (db, set Z.eqb matchdict (match_id m) false)
  else (db, set Z.eqb matchdict (match_id m) true).

(** Line 81: the five fields of a catalog entry, read in this order; a
    field the entry lacks raises [KeyError]. *)
Definition read_hero (hero : hero) : result hero_row :=
  i <- getitem str_eqb hero (str "id") ;;
  n <- getitem str_eqb hero (str "name") ;;
  l <- getitem str_eqb hero (str "localized_name") ;;
  p <- getitem str_eqb hero (str "primary_attr") ;;
  a <- getitem str_eqb hero (str "attack_type") ;;
  Ok {| id := i; name := n; localized_name := l;
        primary_attr := p; attack_type := a |}.

(** Lines 55-57: the heroes of the players on side [team], appended to
    [heroidlist]. *)
Definition collect_heroes (team : bool) (heroidlist : list Z)
    (players : list player) : list Z :=
  fold_left
    (fun heroidlist p =>
       if Bool.eqb (isRadiant p) team
       then heroidlist ++ [player_hero_id p]
       else heroidlist)
    players heroidlist.

Section Run.
(** The three remote endpoints. *)
Variable player_matches : Z -> list match_.
Variable match_players : Z -> list player.
Variable heroes : list hero.

(** Lines 20-44. *)
Definition import_matches (db : database) : database * dict Z bool :=
  fold_left
    (fun st winnumber =>
       fold_left (import_match winnumber) (player_matches winnumber) st)
    wintype (db, []).

(** Lines 49-68, the body of [for mID, team in matchdict.items()];
    the state is the store and [heroidlist]. On an exception the store
    is returned as it was left. *)
Definition import_teammates (st : database * list Z) (item : Z * bool)
  : database * result (list Z) :=
  let (db, heroidlist) := st in
  let (mID, team) := item in
  let heroidlist := collect_heroes team heroidlist (match_players mID) in
  match
    (h0 <- index heroidlist 0 ;;
     h1 <- index heroidlist 1 ;;
     h2 <- index heroidlist 2 ;;
     h3 <- index heroidlist 3 ;;
     h4 <- index heroidlist 4 ;;
     Ok (mID, h0, h1, h2, h3, h4))
  with
  | Ok row =>
      ({| dotamatches := dotamatches db;
          dotamatchesinfo := dotamatchesinfo db ++ [row];
          heroesinfo := heroesinfo db |}, Ok [])
  | Raise e => (db, Raise e)
  end.

Fixpoint teammates_loop (items : list (Z * bool)) (st : database * list Z)
  : database * result (list Z) :=
  match items with
  | [] => (fst st, Ok (snd st))
  | item :: rest =>
      match import_teammates st item with
      | (db, Ok heroidlist) => teammates_loop rest (db, heroidlist)
      | (db, Raise e) => (db, Raise e)
      end
  end.

(** Lines 75-83, [for hero in heroesinfo]: a row is stored for each entry
    until an entry lacks a field; the rows stored before stay. *)
Fixpoint heroes_loop (catalog : list hero) (db : database)
  : database * result unit :=
  match catalog with
  | [] => (db, Ok tt)
  | hero :: rest =>
      match read_hero hero with
      | Ok row =>
          heroes_loop rest
            {| dotamatches := dotamatches db;
               dotamatchesinfo := dotamatchesinfo db;
               heroesinfo := heroesinfo db ++ [row] |}
      | Raise e => (db, Raise e)
      end
  end.

(** Lines 72-83. *)
Definition import_heroes (db : database) : database * result unit :=
  heroes_loop heroes db.

(** The whole script: the store it leaves and how it ended. *)
Definition main (db : database) : database * result unit :=
  let (db, matchdict) := import_matches db in
  match teammates_loop matchdict (db, []) with
  | (db, Ok _) => import_heroes db
  | (db, Raise e) => (db, Raise e)
  end.
End Run.

End MatchImporter.

(** ** The role scraper ([webscrape.py]) *)

Module RoleScraper.

(** The page as the script reads it through the parser: the [th] cells in
    document order ([soup.find_all("th")]); for each its text and the [td]
    that [find_next("td")] returns, if any, given by its [a] elements
    ([find_all("a")]); for each of these its [title] attribute, if any. *)
Record a_tag : Type := { title : option pystr }.

Record th : Type := {
  get_text : pystr;
  find_next_td : option (list a_tag)
}.

Definition soup : Type := list th.

(** The marker, U+25A0. *)
Definition marker : pystr := [9632%N].

(** Lines 17-18. *)
Definition level_of (rolestring : pystr) : Z := str_count rolestring marker.

Definition role_of (rolestring : pystr) : pystr :=
  str_strip (str_replace rolestring marker []).

(** [heroattributes]: role, then level, then the heroes listed. *)
Definition levels : Type := dict Z (list pystr).
Definition attributes : Type := dict pystr levels.

(** Lines 29-30, the body of [for hero in ...find_all("a")]. *)
Definition add_hero (role : pystr) (level : Z)
    (heroattributes : attributes) (hero : a_tag) : result attributes :=
  heroname <- match title hero with
              | Some t => Ok t
              | None => Raise KeyError
              end ;;
  bylevel <- getitem str_eqb heroattributes role ;;
  heroes <- getitem Z.eqb bylevel level ;;
  Ok (set str_eqb heroattributes role
        (set Z.eqb bylevel level (heroes ++ [heroname]))).

(** Lines 21-25: the list of [(role, level)] is set to the empty list. *)
Definition open_level (heroattributes : attributes) (role : pystr) (level : Z)
  : result attributes :=
  if contains str_eqb heroattributes role
  then bylevel <- getitem str_eqb heroattributes role ;;
       Ok (set str_eqb heroattributes role (set Z.eqb bylevel level []))
  else Ok (set str_eqb heroattributes role [(level, [])]).

(** Lines 14-30, the body of [for roleheader in soup.find_all("th")]. *)
Definition add_header (heroattributes : attributes) (roleheader : th)
  : result attributes :=
  let rolestring := get_text roleheader in
  let level := level_of rolestring in
  let role := role_of rolestring in
  heroattributes <- open_level heroattributes role level ;;
  td <- match find_next_td roleheader with
        | Some td => Ok td
        | None => Raise AttributeError
        end ;;
  for_each (add_hero role level) td heroattributes.

(** Lines 10-30. *)
Definition collect (page : soup) : result attributes :=
  for_each add_header page [].

(** A cell of a row of [dfheroattributes]: a hero name or a level. *)
Inductive value : Type :=
| VStr (s : pystr)
| VInt (n : Z).

(** [v == w] *)
Definition value_eqb (v w : value) : bool :=
  match v, w with
  | VStr s, VStr t => str_eqb s t
  | VInt n, VInt m => Z.eqb n m
  | _, _ => false
  end.

Definition dfrow : Type := dict pystr value.

Definition Hero : pystr := str "Hero".

(** Lines 44-48, [for dfrow in dfheroattributes] with its [break]:
    the rows and [herochecker]. *)
Fixpoint find_row (dfheroattributes : list dfrow)
    (hero role : pystr) (level : Z) : result (list dfrow * bool) :=
  match dfheroattributes with
  | [] => Ok ([], false)
  | dfrow :: rest =>
      name <- getitem str_eqb dfrow Hero ;;
      if value_eqb name (VStr hero)
      then Ok (set str_eqb dfrow role (VInt level) :: rest, true)
      else r <- find_row rest hero role level ;;
           Ok (dfrow :: fst r, snd r)
  end.

(** Lines 43-50, the body of [for hero in heroattributes[role][level]]. *)
Definition place_hero (role : pystr) (level : Z)
    (dfheroattributes : list dfrow) (hero : pystr) : result (list dfrow) :=
  r <- find_row dfheroattributes hero role level ;;
  if snd r
  then Ok (fst r)
  else Ok (fst r ++ [set str_eqb [(Hero, VStr hero)] role (VInt level)]).

(** Lines 40-50, the body of [for level in heroattributes[role]]. *)
Definition pivot_level (heroattributes : attributes) (role : pystr)
    (dfheroattributes : list dfrow) (level : Z) : result (list dfrow) :=
  bylevel <- getitem str_eqb heroattributes role ;;
  heroes <- getitem Z.eqb bylevel level ;;
  for_each (place_hero role level) heroes dfheroattributes.

(** Lines 36-50, the body of [for role in heroattributes]; the state is
    [dfheroattributes] and [totalrolelist]. *)
Definition pivot_role (heroattributes : attributes)
    (st : list dfrow * list pystr) (role : pystr)
  : result (list dfrow * list pystr) :=
  let (dfheroattributes, totalrolelist) := st in
  let totalrolelist := totalrolelist ++ [role] in
  bylevel <- getitem str_eqb heroattributes role ;;
  dfheroattributes <-
    for_each (pivot_level heroattributes role) (keys bylevel) dfheroattributes ;;
  Ok (dfheroattributes, totalrolelist).

(** Lines 33-50. *)
Definition pivot (heroattributes : attributes)
  : result (list dfrow * list pystr) :=
  for_each (pivot_role heroattributes) (keys heroattributes) ([], []).

(** Lines 53-56. *)
Definition fill_zero (totalrolelist : list pystr)
    (dfheroattributes : list dfrow) : list dfrow :=
  fold_left
    (fun rows role =>
       List.map
         (fun dfrow =>
            if contains str_eqb dfrow role
            then dfrow
            else set str_eqb dfrow role (VInt 0))
         rows)
    totalrolelist dfheroattributes.

(** Lines 10-56: the rows handed to [pd.DataFrame]. *)
Definition records (page : soup) : result (list dfrow) :=
  heroattributes <- collect page ;;
  st <- pivot heroattributes ;;
  Ok (fill_zero (snd st) (fst st)).

(** [pd.DataFrame(data)] for a list of dicts: the columns are the keys in
    the order they are first met going through the rows, a cell is the
    row's value for the column, or missing ([None], pandas' NaN). *)
Definition fast_unique (vals : list pystr) : list pystr :=
  fold_left
    (fun uniques val =>
       if existsb (str_eqb val) uniques then uniques else uniques ++ [val])
    vals [].

Record DataFrame : Type := {
  columns : list pystr;
  values : list (list (option value))
}.

Definition mkDataFrame (data : list dfrow) : DataFrame :=
  let columns := fast_unique (flat_map (@keys pystr value) data) in
  {| columns := columns;
     values := List.map (fun row => List.map (get str_eqb row) columns) data |}.

(** Line 59. *)
Definition df (page : soup) : result DataFrame :=
  data <- records page ;;
  Ok (mkDataFrame data).

Section ToCsv.
(** [csv.writer.writerow] under the dialect pandas sets up, encoded,
    and pandas' rendering of the cells as text. *)
Variable writerow : list pystr -> list Byte.byte.
Variable values_for_csv : DataFrame -> list (list pystr).

(** [df.to_csv(path, index=False)]: the column labels, then each row. *)
Definition to_csv (frame : DataFrame) : list Byte.byte :=
  writerow (columns frame) ++ flat_map writerow (values_for_csv frame).

(** The whole script, on the page it fetched and the content of
    [dotaheroroles.csv] before the run ([None] when there is no file):
    the content after the run and how the run ended. The file is opened
    for writing only by line 60. *)
Definition webscrape (page : soup) (file : option (list Byte.byte))
  : option (list Byte.byte) * result unit :=
  match df page with
  | Ok frame => (Some (to_csv frame), Ok tt)
  | Raise e => (file, Raise e)
  end.
End ToCsv.

End RoleScraper.

(** ** The vocabulary of the specification *)

Module Spec.

Import MatchImporter RoleScraper.

(** The distinct elements of a list, each at the place it is first met. *)
Fixpoint first_seen {A : Type} (eqb : A -> A -> bool) (l : list A) : list A :=
  match l with
  | [] => []
  | x :: t => x :: filter (fun y => negb (eqb x y)) (first_seen eqb t)
  end.

(** A string that does not begin with whitespace. *)
Definition no_space_at_head (s : pystr) : Prop :=
  match s with
  | [] => True
  | c :: _ => isspace c = false
  end.

(** A match-history entry with the given identifier and winner, every
    other field null. *)
Definition a_match (mID : Z) (radiant_won : bool) : match_ :=
  {| match_id := mID; player_slot := JNull; radiant_win := radiant_won;
     duration := JNull; game_mode := JNull; lobby_type := JNull;
     hero_id := JNull; start_time := JNull; version := JNull;
     kills := JNull; deaths := JNull; assists := JNull; skill := JNull;
     average_rank := JNull; leaver_status := JNull; party_size := JNull |}.

Definition empty_store : database :=
  {| dotamatches := []; dotamatchesinfo := []; heroesinfo := [] |}.

(** The side written to [matchdict] for [m] when it is fetched with
    outcome [winnumber]. *)
Definition recorded_side (winnumber : Z) (st : database * dict Z bool)
    (m : match_) : option bool :=
  get Z.eqb (snd (import_match winnumber st m)) (match_id m).

(** The players of a match detail on side [team], in the order of the
    payload. *)
Definition same_side (team : bool) (players : list player) : list player :=
  filter (fun p => Bool.eqb (isRadiant p) team) players.

(** The role and the level a header cell stands for. *)
Definition role (h : th) : pystr := role_of (get_text h).
Definition level (h : th) : Z := level_of (get_text h).

(** The hero names linked from the data cell of a header cell, when the
    cell has a data cell and every link in it has a title. *)
Fixpoint titles (td : list a_tag) : option (list pystr) :=
  match td with
  | [] => Some []
  | a :: rest =>
      match title a, titles rest with
      | Some t, Some ts => Some (t :: ts)
      | _, _ => None
      end
  end.

Definition heroes_of (h : th) : option (list pystr) :=
  match find_next_td h with
  | Some td => titles td
  | None => None
  end.

(** The data cell of [h] links [hero]. *)
Definition links (h : th) (hero : pystr) : Prop :=
  exists td, find_next_td h = Some td /\ In {| title := Some hero |} td.

(** [hero] is linked from the data cell of some header cell of [role]. *)
Definition associated (page : soup) (hero r : pystr) : Prop :=
  exists h, In h page /\ role h = r /\ links h hero.

(** The roles of the page, in the order they are first met. *)
Definition roles (page : soup) : list pystr :=
  first_seen str_eqb (List.map role page).

(** The levels met under role [r], in the order they are first met. *)
Definition levels_of (page : soup) (r : pystr) : list Z :=
  first_seen Z.eqb
    (List.map level (filter (fun h => str_eqb (role h) r) page)).

(** The last header cell of the page standing for [(r, l)]. *)
Definition last_header (page : soup) (r : pystr) (l : Z) : option th :=
  find (fun h => str_eqb (role h) r && Z.eqb (level h) l) (rev page).

(** The heroes linked from that cell. *)
Definition listed (page : soup) (r : pystr) (l : Z) : option (list pystr) :=
  match last_header page r l with
  | Some h => heroes_of h
  | None => None
  end.

(** [hero] is among the heroes of the last cell of some level of [r]. *)
Definition listed_under (page : soup) (hero r : pystr) : bool :=
  existsb
    (fun h =>
       match listed page r (level h) with
       | Some ts => existsb (str_eqb hero) ts
       | None => false
       end)
    page.

(** A header cell with the given text whose data cell links the given
    heroes. *)
Definition header (text : pystr) (names : list pystr) : th :=
  {| get_text := text;
     find_next_td := Some (List.map (fun n => {| title := Some n |}) names) |}.

(** [frame.loc[line, column]] for a line of the frame: [None] when the
    frame has no such column, [Some None] for a missing value. *)
Definition loc (frame : DataFrame) (line : list (option value))
    (column : pystr) : option (option value) :=
  get str_eqb (combine (columns frame) line) column.

(** A plain writer and a plain rendering of the cells, for frames whose
    fields are ASCII and need no quoting: the fields of a line separated
    by commas, the line ended by a line feed; a name as it is, a level in
    decimal, a missing value as the empty field. *)
Definition plain_field (field : pystr) : list Byte.byte :=
  List.map (fun c => match Byte.of_N c with
                     | Some b => b
                     | None => Byte.x3f
                     end) field.

Fixpoint join_fields (fields : list pystr) : list Byte.byte :=
  match fields with
  | [] => []
  | [field] => plain_field field
  | field :: rest => plain_field field ++ Byte.x2c :: join_fields rest
  end.

Definition plain_writerow (fields : list pystr) : list Byte.byte :=
  join_fields fields ++ [Byte.x0a].

Definition plain_cell (cell : option value) : pystr :=
  match cell with
  | Some (VStr s) => s
  | Some (VInt n) => str (NilZero.string_of_int (Z.to_int n))
  | None => []
  end.

Definition plain_values (frame : DataFrame) : list (list pystr) :=
  List.map (List.map plain_cell) (values frame).

(** The matches the importer fetches, each with the outcome of the query
    that returned it: the wins, then the losses. *)
Definition fetched (player_matches : Z -> list match_) : list (Z * match_) :=
  List.map (pair 1%Z) (player_matches 1%Z)
  ++ List.map (pair 0%Z) (player_matches 0%Z).

(** The teammates row of a match: its identifier and the first five hero
    identifiers of the players on the side, when there are five. *)
Definition first_five (mID : Z) (hs : list Z)
  : option (Z * Z * Z * Z * Z * Z) :=
  match hs with
  | h0 :: h1 :: h2 :: h3 :: h4 :: _ => Some (mID, h0, h1, h2, h3, h4)
  | _ => None
  end.

Definition teammates_row_of (match_players : Z -> list player)
    (item : Z * bool) : option (Z * Z * Z * Z * Z * Z) :=
  first_five (fst item)
    (List.map player_hero_id
       (same_side (snd item) (match_players (fst item)))).

(** The fields of a catalog entry that line 81 reads. *)
Definition hero_fields : list pystr :=
  [str "id"; str "name"; str "localized_name"; str "primary_attr";
   str "attack_type"].

(** The row holds the five fields of the entry, as they are. *)
Definition copied (entry : hero) (row : hero_row) : Prop :=
  get str_eqb entry (str "id") = Some (id row)
  /\ get str_eqb entry (str "name") = Some (name row)
  /\ get str_eqb entry (str "localized_name") = Some (localized_name row)
  /\ get str_eqb entry (str "primary_attr") = Some (primary_attr row)
  /\ get str_eqb entry (str "attack_type") = Some (attack_type row).

End Spec.

Import MatchImporter RoleScraper Spec.

(** ** What the loops of the scraper maintain *)

Module Inv.

(** [heroattributes[role]], or an empty dict for a role not met yet. *)
Definition bylevel_of (heroattributes : attributes) (r : pystr) : levels :=
  match get str_eqb heroattributes r with
  | Some bylevel => bylevel
  | None => []
  end.

(** The accumulator after a header cell of heroes [ts]. *)
Definition with_header (heroattributes : attributes) (h : th)
    (ts : list pystr) : attributes :=
  set str_eqb heroattributes (role h)
    (set Z.eqb (bylevel_of heroattributes (role h)) (level h) ts).

(** The (role, level, hero) triples of the accumulator, in the order the
    pivot goes through them. *)
Definition associations (heroattributes : attributes)
  : list (pystr * Z * pystr) :=
  flat_map
    (fun rb =>
       flat_map (fun lh => List.map (fun hero => (fst rb, fst lh, hero)) (snd lh))
                (snd rb))
    heroattributes.

(** The body of the pivot on one triple. *)
Definition place (dfheroattributes : list dfrow) (t : pystr * Z * pystr)
  : result (list dfrow) :=
  place_hero (fst (fst t)) (snd (fst t)) dfheroattributes (snd t).

(** Every role and, under a role, every level is met once. *)
Definition wf_attributes (heroattributes : attributes) : Prop :=
  NoDup (keys heroattributes)
  /\ forall r b, In (r, b) heroattributes -> NoDup (keys b).

(** What holds of a row of [dfheroattributes] all along the pivot, [P]
    being the triples gone through: it has a name; its other keys are
    roles of [P]; and, as long as its name is a hero name, a level under
    a role comes from a triple of that hero. *)
Definition row_ok (P : list (pystr * Z * pystr)) (row : dfrow) : Prop :=
  get str_eqb row Hero <> None
  /\ (forall k, In k (keys row) -> k = Hero \/ exists l h, In (k, l, h) P)
  /\ (forall h, get str_eqb row Hero = Some (VStr h) ->
      forall r v, r <> Hero -> get str_eqb row r = Some v ->
                  exists l, v = VInt l /\ In (r, l, h) P).

(** The heroes of the triples, in first-seen order. *)
Definition heroes_in (P : list (pystr * Z * pystr)) : list pystr :=
  first_seen str_eqb (List.map snd P).

(** The triple is one of role [r] and hero [h]. *)
Definition about (r h : pystr) (t : pystr * Z * pystr) : bool :=
  str_eqb (fst (fst t)) r && str_eqb (snd t) h.

(** The roles of the triples of hero [h], in first-seen order. *)
Definition roles_for (P : list (pystr * Z * pystr)) (h : pystr) : list pystr :=
  first_seen str_eqb
    (List.map (fun t => fst (fst t)) (filter (fun t => str_eqb (snd t) h) P)).

(** The level of the last triple of role [r] and hero [h]. *)
Definition last_level (P : list (pystr * Z * pystr)) (r h : pystr) : option Z :=
  option_map (fun t => snd (fst t)) (find (about r h) (rev P)).

(** What holds of the row of hero [h] along the pivot when no role is
    named "Hero": its keys are the name and the roles of [h] in first-seen
    order, and under each role it holds the level of the last triple. *)
Definition row_of (P : list (pystr * Z * pystr)) (row : dfrow) (h : pystr)
  : Prop :=
  get str_eqb row Hero = Some (VStr h)
  /\ keys row = Hero :: roles_for P h
  /\ forall r, r <> Hero ->
                get str_eqb row r = option_map VInt (last_level P r h).

(** Hero [h] is in the list of some level of the role. *)
Definition lists (h : pystr) (rb : pystr * levels) : bool :=
  existsb (fun lh => existsb (str_eqb h) (snd lh)) (snd rb).

(** The columns of the filled row of hero [h]: the name, the roles the
    hero is listed under, the other roles. *)
Definition columns_of (page : soup) (h : pystr) : list pystr :=
  Hero :: filter (listed_under page h) (roles page)
       ++ filter (fun r => negb (listed_under page h r)) (roles page).

(** Lines 53-56 on one row. *)
Definition fill_row (totalrolelist : list pystr) (row : dfrow) : dfrow :=
  fold_left
    (fun dfrow role =>
       if contains str_eqb dfrow role
       then dfrow
       else set str_eqb dfrow role (VInt 0))
    totalrolelist row.

End Inv.

Import Inv.

(** On a page written out, no header cell of the role links the hero. *)
Ltac not_associated :=
  let h := fresh "h" in
  let Hin := fresh "Hin" in
  let Hrole := fresh "Hrole" in
  let td := fresh "td" in
  let Htd := fresh "Htd" in
  let Hlink := fresh "Hlink" in
  intros [h [Hin [Hrole [td [Htd Hlink]]]]];
  repeat (destruct Hin as [<-|Hin];
          [ first [ vm_compute in Hrole; discriminate Hrole
                  | vm_compute in Htd; inversion Htd; subst td;
                    vm_compute in Hlink;
                    repeat (destruct Hlink as [Hlink|Hlink];
                            [discriminate Hlink|]);
                    exact Hlink ]
          | ]);
  exact Hin.

(** ** Facts about the Python values *)

Section ForEach.
Context {A S : Type}.

Lemma for_each_app (f : S -> A -> result S) (l1 l2 : list A) (s : S) :
  for_each f (l1 ++ l2) s = bind (for_each f l1 s) (for_each f l2).
Proof.
  revert s; induction l1 as [|x l1 IH]; intros s; simpl; [reflexivity|].
  destruct (f s x); simpl; auto.
Qed.

Lemma for_each_ext (f g : S -> A -> result S) (l : list A) (s : S) :
  (forall s x, In x l -> f s x = g s x) ->
  for_each f l s = for_each g l s.
Proof.
  revert s; induction l as [|x l IH]; intros s H; simpl; [reflexivity|].
  rewrite (H s x) by (left; reflexivity).
  destruct (g s x); simpl; auto.
  apply IH. intros; apply H; right; assumption.
Qed.

(** A loop whose body cannot fail is a fold. *)
Lemma for_each_total (f : S -> A -> result S) (g : S -> A -> S)
      (l : list A) (s : S) :
  (forall s x, f s x = Ok (g s x)) ->
  for_each f l s = Ok (fold_left g l s).
Proof.
  intros H; revert s; induction l as [|x l IH]; intros s; simpl; [reflexivity|].
  rewrite H; simpl; apply IH.
Qed.
End ForEach.

Lemma str_eqb_eq (s t : pystr) : str_eqb s t = true <-> s = t.
Proof.
  unfold str_eqb. destruct (list_eq_dec N.eq_dec s t); split; congruence.
Qed.

Lemma str_eqb_refl (s : pystr) : str_eqb s s = true.
Proof. apply str_eqb_eq; reflexivity. Qed.

Lemma str_eqb_neq (s t : pystr) : str_eqb s t = false <-> s <> t.
Proof.
  unfold str_eqb. destruct (list_eq_dec N.eq_dec s t); split; congruence.
Qed.

Section DictFacts.
Context {K V : Type} {eqb : K -> K -> bool}.
Hypothesis eqb_eq : forall a b, eqb a b = true <-> a = b.

Lemma eqb_refl (a : K) : eqb a a = true.
Proof. apply eqb_eq; reflexivity. Qed.

Lemma eqb_neq (a b : K) : a <> b -> eqb a b = false.
Proof.
  intros H. destruct (eqb a b) eqn:E; [|reflexivity].
  apply eqb_eq in E; contradiction.
Qed.

Lemma get_set_same (d : dict K V) k v : get eqb (set eqb d k v) k = Some v.
Proof.
  induction d as [|[k' v'] d IH]; simpl.
  - rewrite eqb_refl; reflexivity.
  - destruct (eqb k' k) eqn:E; simpl; rewrite E; auto.
Qed.

Lemma get_set_other (d : dict K V) k k' v :
  k <> k' -> get eqb (set eqb d k v) k' = get eqb d k'.
Proof.
  intros Hn. induction d as [|[k0 v0] d IH]; simpl.
  - rewrite eqb_neq by assumption; reflexivity.
  - destruct (eqb k0 k) eqn:E; simpl.
    + apply eqb_eq in E; subst k0. rewrite eqb_neq by assumption. reflexivity.
    + destruct (eqb k0 k'); auto.
Qed.

Lemma set_set (d : dict K V) k v v' :
  set eqb (set eqb d k v) k v' = set eqb d k v'.
Proof.
  induction d as [|[k0 v0] d IH]; simpl.
  - rewrite eqb_refl; reflexivity.
  - destruct (eqb k0 k) eqn:E; simpl; rewrite E; congruence.
Qed.

Lemma get_Some_In (d : dict K V) k v : get eqb d k = Some v -> In k (keys d).
Proof.
  induction d as [|[k0 v0] d IH]; simpl; [discriminate|].
  destruct (eqb k0 k) eqn:E; auto. apply eqb_eq in E; auto.
Qed.

Lemma get_None_notin (d : dict K V) k : get eqb d k = None <-> ~ In k (keys d).
Proof.
  induction d as [|[k0 v0] d IH]; simpl; [tauto|].
  destruct (eqb k0 k) eqn:E.
  - apply eqb_eq in E. split; [discriminate | intros H; exfalso; auto].
  - rewrite IH. split; [|tauto].
    intros H [H1|H1]; [|tauto]. subst. rewrite eqb_refl in E; discriminate.
Qed.

Lemma contains_In (d : dict K V) k : contains eqb d k = true <-> In k (keys d).
Proof.
  unfold contains. destruct (get eqb d k) eqn:E.
  - split; [intros _; eapply get_Some_In; eassumption | reflexivity].
  - apply get_None_notin in E. split; [discriminate | contradiction].
Qed.

Lemma contains_false (d : dict K V) k :
  contains eqb d k = false <-> ~ In k (keys d).
Proof.
  rewrite <- contains_In. destruct (contains eqb d k); split; congruence.
Qed.

Lemma keys_set (d : dict K V) k v :
  keys (set eqb d k v) = if contains eqb d k then keys d else keys d ++ [k].
Proof.
  unfold contains. induction d as [|[k0 v0] d IH]; simpl; [reflexivity|].
  destruct (eqb k0 k) eqn:E; simpl; [reflexivity|].
  unfold keys in *. rewrite IH. destruct (get eqb d k); reflexivity.
Qed.

Lemma In_get (d : dict K V) k v :
  NoDup (keys d) -> In (k, v) d -> get eqb d k = Some v.
Proof.
  induction d as [|[k0 v0] d IH]; simpl; [tauto|].
  intros Hnd [H|H].
  - inversion H; subst. rewrite eqb_refl; reflexivity.
  - inversion Hnd; subst. destruct (eqb k0 k) eqn:E; auto.
    apply eqb_eq in E; subst. exfalso. apply H2.
    change k with (fst (k, v)). apply in_map; assumption.
Qed.

Lemma get_In (d : dict K V) k v : get eqb d k = Some v -> In (k, v) d.
Proof.
  induction d as [|[k0 v0] d IH]; simpl; [discriminate|].
  destruct (eqb k0 k) eqn:E; auto.
  apply eqb_eq in E; subst. intros H; inversion H; auto.
Qed.
End DictFacts.

(** *** Strings *)

Lemma count_marker (c : N) (s : pystr) :
  count_from [c] s 0 = Z.of_nat (count_occ N.eq_dec s c).
Proof.
  induction s as [|d s IH]; [reflexivity|].
  cbn [count_from startswith List.length Nat.sub count_occ].
  destruct (N.eq_dec d c) as [->|Hn].
  - rewrite N.eqb_refl. cbn [andb]. rewrite IH.
    destruct (N.eq_dec c c); [lia | congruence].
  - replace (N.eqb c d) with false by (symmetry; apply N.eqb_neq; congruence).
    cbn [andb]. destruct (N.eq_dec d c); [congruence | exact IH].
Qed.

Lemma replace_marker (c : N) (s : pystr) :
  replace_from [c] [] s 0 = remove N.eq_dec c s.
Proof.
  induction s as [|d s IH]; [reflexivity|].
  cbn [replace_from startswith List.length Nat.sub remove app].
  destruct (N.eq_dec c d) as [->|Hn].
  - rewrite N.eqb_refl. cbn [andb].
    destruct (N.eq_dec d d); [exact IH | congruence].
  - replace (N.eqb c d) with false by (symmetry; apply N.eqb_neq; congruence).
    cbn [andb]. destruct (N.eq_dec c d); [congruence | rewrite IH; reflexivity].
Qed.

Lemma lstrip_split (s : pystr) :
  exists lead, s = lead ++ lstrip s /\ forallb isspace lead = true.
Proof.
  induction s as [|c s [lead [H1 H2]]]; [exists []; auto|].
  simpl. destruct (isspace c) eqn:E.
  - exists (c :: lead). split.
    + simpl; f_equal; exact H1.
    + simpl; rewrite E; exact H2.
  - exists []; auto.
Qed.

Lemma lstrip_head (s : pystr) : no_space_at_head (lstrip s).
Proof.
  induction s as [|c s IH]; simpl; [exact I|].
  destruct (isspace c) eqn:E; [exact IH | exact E].
Qed.

Lemma lstrip_idem (s : pystr) : no_space_at_head s -> lstrip s = s.
Proof. destruct s as [|c s]; simpl; [reflexivity|]. intros ->; reflexivity. Qed.

Lemma rstrip_split (s : pystr) :
  exists trail, s = rstrip s ++ trail /\ forallb isspace trail = true.
Proof.
  unfold rstrip. destruct (lstrip_split (rev s)) as [lead [H1 H2]].
  exists (rev lead). split.
  - rewrite <- rev_app_distr, <- H1, rev_involutive; reflexivity.
  - rewrite forallb_forall in *. intros x Hx. apply H2, in_rev, Hx.
Qed.

Lemma rstrip_head (s : pystr) :
  no_space_at_head s -> no_space_at_head (rstrip s).
Proof.
  intros H. destruct (rstrip_split s) as [trail [H1 H2]].
  destruct (rstrip s) as [|c r] eqn:E; [exact I|].
  rewrite H1 in H. exact H.
Qed.

Lemma rstrip_last (s : pystr) : no_space_at_head (rev (rstrip s)).
Proof. unfold rstrip. rewrite rev_involutive. apply lstrip_head. Qed.

(** *** First-seen order *)

Section FirstSeenFacts.
Context {A : Type} {eqb : A -> A -> bool}.
Hypothesis eqb_eq : forall a b, eqb a b = true <-> a = b.

Lemma existsb_eqb_In (x : A) (l : list A) :
  existsb (eqb x) l = true <-> In x l.
Proof.
  rewrite existsb_exists. split.
  - intros [y [H1 H2]]. apply eqb_eq in H2; subst; assumption.
  - intros H. exists x. split; [assumption | apply eqb_eq; reflexivity].
Qed.

Lemma existsb_eqb_notin (x : A) (l : list A) :
  existsb (eqb x) l = false <-> ~ In x l.
Proof.
  rewrite <- existsb_eqb_In. destruct (existsb (eqb x) l); split; congruence.
Qed.

Lemma In_first_seen (x : A) (l : list A) : In x (first_seen eqb l) <-> In x l.
Proof.
  induction l as [|a l IH]; simpl; [tauto|].
  rewrite filter_In, IH. split; [tauto|].
  intros [H|H]; [auto|].
  destruct (eqb a x) eqn:E; [apply eqb_eq in E; auto|]. right; auto.
Qed.

Lemma NoDup_first_seen (l : list A) : NoDup (first_seen eqb l).
Proof.
  induction l as [|a l IH]; simpl; constructor.
  - rewrite filter_In. intros [_ H].
    rewrite (proj2 (eqb_eq a a) eq_refl) in H; discriminate.
  - apply NoDup_filter; assumption.
Qed.

Lemma first_seen_snoc (l : list A) (x : A) :
  first_seen eqb (l ++ [x]) =
  if existsb (eqb x) l then first_seen eqb l else first_seen eqb l ++ [x].
Proof.
  induction l as [|a l IH]; simpl; [reflexivity|].
  rewrite IH. destruct (eqb x a) eqn:E; simpl.
  - apply eqb_eq in E; subst a.
    destruct (existsb (eqb x) l); [reflexivity|].
    rewrite filter_app; simpl.
    rewrite (proj2 (eqb_eq x x) eq_refl); simpl. rewrite app_nil_r; reflexivity.
  - destruct (existsb (eqb x) l); [reflexivity|].
    rewrite filter_app; simpl.
    destruct (eqb a x) eqn:E'; [|reflexivity].
    apply eqb_eq in E'; subst.
    rewrite (proj2 (eqb_eq x x) eq_refl) in E; discriminate.
Qed.

Lemma first_seen_app_incl (l1 l2 : list A) :
  (forall x, In x l2 -> In x l1) -> first_seen eqb (l1 ++ l2) = first_seen eqb l1.
Proof.
  revert l1. induction l2 as [|x l2 IH]; intros l1 H; [rewrite app_nil_r; reflexivity|].
  change (l1 ++ x :: l2) with (l1 ++ [x] ++ l2). rewrite app_assoc, IH.
  - rewrite first_seen_snoc.
    rewrite (proj2 (existsb_eqb_In x l1)); [reflexivity|]. apply H; left; reflexivity.
  - intros y Hy. apply in_or_app. left. apply H. right; assumption.
Qed.

Lemma filter_all (p : A -> bool) (l : list A) :
  (forall x, In x l -> p x = true) -> filter p l = l.
Proof.
  induction l as [|a l IH]; simpl; intros H; [reflexivity|].
  rewrite (H a) by auto. f_equal; auto.
Qed.

Lemma first_seen_NoDup (l : list A) : NoDup l -> first_seen eqb l = l.
Proof.
  induction 1 as [|a l Hn Hd IH]; simpl; [reflexivity|].
  rewrite IH. f_equal. apply filter_all. intros x Hx.
  destruct (eqb a x) eqn:E; [|reflexivity]. apply eqb_eq in E; subst; contradiction.
Qed.

(** The accumulating loop that keeps what it has not seen computes the
    first-seen order. *)
Lemma fold_unique (l : list A) :
  fold_left (fun seen x => if existsb (eqb x) seen then seen else seen ++ [x]) l []
  = first_seen eqb l.
Proof.
  induction l as [|x l IH] using rev_ind; [reflexivity|].
  rewrite fold_left_app, first_seen_snoc; simpl. rewrite IH.
  destruct (existsb (eqb x) l) eqn:E.
  - rewrite (proj2 (existsb_eqb_In x _)); [reflexivity|].
    apply In_first_seen, existsb_eqb_In; assumption.
  - rewrite (proj2 (existsb_eqb_notin x _)); [reflexivity|].
    rewrite In_first_seen. apply existsb_eqb_notin; assumption.
Qed.
End FirstSeenFacts.

Lemma fast_unique_first_seen (l : list pystr) :
  fast_unique l = first_seen str_eqb l.
Proof. apply fold_unique, str_eqb_eq. Qed.

(** ** The match importer *)

Lemma Z_eqb_eq (a b : Z) : Z.eqb a b = true <-> a = b.
Proof. apply Z.eqb_eq. Qed.

Lemma recorded_side_eq (winnumber : Z) (st : database * dict Z bool) (m : match_) :
  recorded_side winnumber st m =
  Some (negb (winnumber + Z.b2z (radiant_win m) =? 1)%Z).
Proof.
  unfold recorded_side, import_match. destruct st as [db matchdict].
  destruct (winnumber + Z.b2z (radiant_win m) =? 1)%Z; simpl;
    apply get_set_same, Z_eqb_eq.
Qed.

(** C1, as the code has it: for a match fetched with outcome 1 or 0 the
    side written to [matchdict] is [True] (radiant) exactly when the sum of
    the outcome and the radiant-won flag is even, that is when "player won"
    and "radiant won" both hold or both fail. *)
Theorem side_is_radiant_iff_sum_even :
  forall (winnumber : Z) (st : database * dict Z bool) (m : match_),
    In winnumber wintype ->
    recorded_side winnumber st m
    = Some (Z.even (winnumber + Z.b2z (radiant_win m)))
    /\ (Z.even (winnumber + Z.b2z (radiant_win m)) = true
        <-> (winnumber = 1%Z <-> radiant_win m = true)).
Proof.
  intros w st m Hw. rewrite recorded_side_eq.
  destruct Hw as [<-|[<-|[]]]; destruct (radiant_win m); simpl;
    (split; [reflexivity|]); split; intros; try split; intros;
    try reflexivity; try discriminate; try lia; try tauto.
Qed.

Lemma side_is_radiant_iff_sum_even_witness :
  recorded_side 1 (empty_store, []) (a_match 7 true) = Some true.
Proof.
  exact (proj1 (side_is_radiant_iff_sum_even 1%Z (empty_store, [])
                  (a_match 7 true) (or_introl eq_refl))).
Defined.

(** C1, as it is stated, fails: a won match that radiant won is written
    as radiant, and the sum, 2, is not odd. *)
Lemma side_not_iff_sum_odd :
  ~ (recorded_side 1 (empty_store, []) (a_match 7 true) = Some true
     <-> Z.odd (1 + Z.b2z (radiant_win (a_match 7 true))) = true).
Proof.
  intros [H _]. specialize (H eq_refl). discriminate H.
Qed.

(** C2: the truth table of the side written to [matchdict]. With outcome 1
    a match radiant won is written as radiant and one it lost as dire; with
    outcome 0 a match radiant won is written as dire and one it lost as
    radiant. *)
Theorem side_truth_table :
  forall (st : database * dict Z bool) (m : match_),
    (recorded_side 1 st m, recorded_side 0 st m)
    = if radiant_win m
      then (Some true, Some false)
      else (Some false, Some true).
Proof.
  intros st m. rewrite !recorded_side_eq. destruct (radiant_win m); reflexivity.
Qed.

Lemma collect_heroes_same_side (team : bool) (players : list player) :
  forall heroidlist,
    collect_heroes team heroidlist players
    = heroidlist ++ List.map player_hero_id (same_side team players).
Proof.
  unfold collect_heroes, same_side.
  induction players as [|p players IH]; intros acc; simpl.
  - rewrite app_nil_r; reflexivity.
  - rewrite IH. destruct (Bool.eqb (isRadiant p) team); simpl;
      [rewrite <- app_assoc|]; reflexivity.
Qed.

Section Teammates.
Variable match_players : Z -> list player.

(** A match whose detail has at least five players on the side. *)
Lemma import_teammates_enough db mID team h0 h1 h2 h3 h4 more :
  List.map player_hero_id (same_side team (match_players mID))
  = h0 :: h1 :: h2 :: h3 :: h4 :: more ->
  import_teammates match_players (db, []) (mID, team)
  = ({| dotamatches := dotamatches db;
        dotamatchesinfo := dotamatchesinfo db ++ [(mID, h0, h1, h2, h3, h4)];
        heroesinfo := heroesinfo db |}, Ok []).
Proof.
  intros H. unfold import_teammates.
  rewrite collect_heroes_same_side, H. reflexivity.
Qed.

(** The loop only appends to the teammates table. *)
Lemma teammates_loop_appends items :
  forall st, exists rows,
    dotamatchesinfo (fst (teammates_loop match_players items st))
    = dotamatchesinfo (fst st) ++ rows.
Proof.
  induction items as [|[mID team] items IH]; intros [db heroidlist].
  - exists []. simpl. rewrite app_nil_r; reflexivity.
  - cbn [teammates_loop].
    destruct (import_teammates match_players (db, heroidlist) (mID, team))
      as [db' [heroidlist'|e]] eqn:E.
    + unfold import_teammates in E.
      destruct (h0 <- index _ 0 ;; _) as [row|e] in E; inversion E; subst.
      destruct (IH ({| dotamatches := dotamatches db;
                       dotamatchesinfo := dotamatchesinfo db ++ [row];
                       heroesinfo := heroesinfo db |}, [])) as [rows Hrows].
      exists (row :: rows). rewrite Hrows. simpl. rewrite <- app_assoc. reflexivity.
    + unfold import_teammates in E.
      destruct (h0 <- index _ 0 ;; _) as [row|e'] in E; inversion E; subst.
      exists []. simpl. rewrite app_nil_r; reflexivity.
Qed.

(** The row of a match the loop reaches, when its detail has exactly five
    players on the side. *)
Lemma teammates_loop_row :
  forall (before after : list (Z * bool)) (mID : Z) (team : bool)
         (p0 p1 p2 p3 p4 : player) (db : database),
    Forall (fun item =>
              5 <= List.length (same_side (snd item) (match_players (fst item))))
           before ->
    same_side team (match_players mID) = [p0; p1; p2; p3; p4] ->
    nth_error
      (dotamatchesinfo
         (fst (teammates_loop match_players
                 (before ++ (mID, team) :: after) (db, []))))
      (List.length (dotamatchesinfo db) + List.length before)
    = Some (mID, player_hero_id p0, player_hero_id p1, player_hero_id p2,
            player_hero_id p3, player_hero_id p4).
Proof.
  intros before after mID team p0 p1 p2 p3 p4.
  induction before as [|[m t] before IH]; intros db Hbefore Hfive.
  - cbn [app teammates_loop].
    rewrite (import_teammates_enough db mID team
               (player_hero_id p0) (player_hero_id p1) (player_hero_id p2)
               (player_hero_id p3) (player_hero_id p4) [])
      by (rewrite Hfive; reflexivity).
    cbv beta iota.
    match goal with
    | |- context [teammates_loop _ after ?st] =>
        destruct (teammates_loop_appends after st) as [rows Hrows]
    end.
    rewrite Hrows. cbn [fst dotamatchesinfo List.length].
    rewrite Nat.add_0_r, <- app_assoc, nth_error_app2 by lia.
    rewrite Nat.sub_diag. reflexivity.
  - inversion Hbefore as [|x l Hm Hrest]; subst. cbn [fst snd] in Hm.
    cbn [app teammates_loop].
    remember (List.map player_hero_id (same_side t (match_players m))) as hs eqn:Ehs.
    assert (Hlen : 5 <= List.length hs)
      by (subst hs; rewrite length_map; exact Hm).
    destruct hs as [|h0 [|h1 [|h2 [|h3 [|h4 more]]]]]; simpl in Hlen; try lia.
    rewrite (import_teammates_enough db m t h0 h1 h2 h3 h4 more) by auto.
    cbv beta iota.
    match goal with
    | |- nth_error (dotamatchesinfo (fst (teammates_loop _ _ (?db', _)))) ?i = _ =>
        replace i with (List.length (dotamatchesinfo db') + List.length before)
          by (cbn [dotamatchesinfo List.length]; rewrite length_app;
              cbn [List.length]; lia)
    end.
    apply IH; assumption.
Qed.
End Teammates.

Lemma import_match_keeps_teammates (winnumber : Z) (st : database * dict Z bool)
      (m : match_) :
  dotamatchesinfo (fst (import_match winnumber st m)) = dotamatchesinfo (fst st).
Proof.
  unfold import_match. destruct st as [db matchdict].
  destruct (winnumber + Z.b2z (radiant_win m) =? 1)%Z; reflexivity.
Qed.

Lemma import_matches_keeps_teammates (player_matches : Z -> list match_)
      (db : database) :
  dotamatchesinfo (fst (import_matches player_matches db)) = dotamatchesinfo db.
Proof.
  unfold import_matches.
  assert (Hin : forall w ms st,
             dotamatchesinfo (fst (fold_left (import_match w) ms st))
             = dotamatchesinfo (fst st)).
  { intros w ms. induction ms as [|m ms IH]; intros st; [reflexivity|].
    cbn [fold_left]. rewrite IH. apply import_match_keeps_teammates. }
  assert (Hout : forall ws st,
             dotamatchesinfo
               (fst (fold_left
                       (fun st w => fold_left (import_match w) (player_matches w) st)
                       ws st))
             = dotamatchesinfo (fst st)).
  { intros ws. induction ws as [|w ws IH]; intros st; [reflexivity|].
    cbn [fold_left]. rewrite IH. apply Hin. }
  apply (Hout wintype (db, [])).
Qed.

Lemma import_heroes_keeps_teammates (heroes : list hero) (db : database) :
  dotamatchesinfo (fst (import_heroes heroes db)) = dotamatchesinfo db.
Proof.
  unfold import_heroes. revert db.
  induction heroes as [|h heroes IH]; intros db; [reflexivity|].
  cbn [heroes_loop]. destruct (read_hero h); [|reflexivity].
  rewrite IH. reflexivity.
Qed.

(** C3: when the importer reaches a match of [matchdict] (every match
    before it had at least five players on its side; with fewer the run
    dies) and the detail of that match has exactly five players on the
    derived side, the teammates row the run stores for the match holds the
    match identifier and the hero identifiers of those five players, in the
    order of the player list. *)
Theorem teammates_row_has_the_five_heroes :
  forall (player_matches : Z -> list match_) (match_players : Z -> list player)
         (heroes : list hero) (db : database)
         (before after : list (Z * bool)) (mID : Z) (team : bool)
         (p0 p1 p2 p3 p4 : player),
    snd (import_matches player_matches db) = before ++ (mID, team) :: after ->
    Forall (fun item =>
              5 <= List.length (same_side (snd item) (match_players (fst item))))
           before ->
    same_side team (match_players mID) = [p0; p1; p2; p3; p4] ->
    nth_error
      (dotamatchesinfo (fst (main player_matches match_players heroes db)))
      (List.length (dotamatchesinfo db) + List.length before)
    = Some (mID, player_hero_id p0, player_hero_id p1, player_hero_id p2,
            player_hero_id p3, player_hero_id p4).
Proof.
  intros player_matches match_players heroes db before after mID team
         p0 p1 p2 p3 p4 Hdict Hbefore Hfive.
  pose proof (import_matches_keeps_teammates player_matches db) as Hkeep.
  unfold main. destruct (import_matches player_matches db) as [db1 matchdict].
  cbn [fst snd] in Hdict, Hkeep. subst matchdict. rewrite <- Hkeep.
  pose proof (teammates_loop_row match_players before after mID team
                p0 p1 p2 p3 p4 db1 Hbefore Hfive) as Hrow.
  destruct (teammates_loop match_players (before ++ (mID, team) :: after) (db1, []))
    as [db2 [heroidlist|e]]; cbn [fst] in *.
  - rewrite import_heroes_keeps_teammates. exact Hrow.
  - exact Hrow.
Qed.

Lemma teammates_row_has_the_five_heroes_witness :
  let p (r : bool) (h : Z) := {| isRadiant := r; player_hero_id := h |} in
  let player_matches (w : Z) := if (w =? 1)%Z then [a_match 42 true] else [] in
  let match_players (mID : Z) :=
    [p true 1; p false 2; p true 3; p true 4; p false 5;
     p false 6; p true 7; p true 8; p false 9; p false 10]%Z in
  nth_error
    (dotamatchesinfo (fst (main player_matches match_players [] empty_store))) 0
  = Some (42, 1, 3, 4, 7, 8)%Z.
Proof.
  intros p player_matches match_players.
  apply (teammates_row_has_the_five_heroes player_matches match_players []
           empty_store [] [] 42%Z true
           (p true 1%Z) (p true 3%Z) (p true 4%Z) (p true 7%Z) (p true 8%Z)).
  - reflexivity.
  - constructor.
  - reflexivity.
Defined.

(** ** The role scraper *)

(** C4: the level taken from a header cell is the number of markers in its
    text; the role is the text without its markers and without the
    whitespace around what is left: the text without markers is the role
    between two runs of whitespace, and the role neither begins nor ends
    with whitespace. *)
Theorem header_level_and_role :
  forall h : th,
    level h = Z.of_nat (count_occ N.eq_dec (get_text h) 9632%N)
    /\ exists lead trail,
         remove N.eq_dec 9632%N (get_text h) = lead ++ role h ++ trail
         /\ forallb isspace lead = true
         /\ forallb isspace trail = true
         /\ no_space_at_head (role h)
         /\ no_space_at_head (rev (role h)).
Proof.
  intros h. unfold level, role, level_of, role_of, marker, str_count, str_replace.
  split; [apply count_marker|].
  rewrite replace_marker. set (s := remove N.eq_dec 9632%N (get_text h)).
  unfold str_strip.
  destruct (lstrip_split s) as [lead [H1 H2]].
  destruct (rstrip_split (lstrip s)) as [trail [H3 H4]].
  exists lead, trail. repeat split; try assumption.
  - rewrite <- H3; exact H1.
  - apply rstrip_head, lstrip_head.
  - apply rstrip_last.
Qed.

(** *** The accumulator *)

Lemma open_level_eq (ha : attributes) (r : pystr) (l : Z) :
  open_level ha r l = Ok (set str_eqb ha r (set Z.eqb (bylevel_of ha r) l [])).
Proof.
  unfold open_level, bylevel_of, contains, getitem.
  destruct (get str_eqb ha r); reflexivity.
Qed.

Lemma add_heroes_eq (r : pystr) (l : Z) (td : list a_tag) :
  forall (ha : attributes) (b : levels) (hs : list pystr),
    get str_eqb ha r = Some b ->
    get Z.eqb b l = Some hs ->
    for_each (add_hero r l) td ha
    = match titles td with
      | Some ts => Ok (set str_eqb ha r (set Z.eqb b l (hs ++ ts)))
      | None => Raise KeyError
      end.
Proof.
  induction td as [|a td IH]; intros ha b hs Hb Hhs.
  - simpl. rewrite app_nil_r. f_equal.
    assert (Hb' : set Z.eqb b l hs = b).
    { clear Hb. induction b as [|[l' hs'] b IHb]; simpl in *; [discriminate|].
      destruct (Z.eqb l' l); [congruence|]. f_equal; auto. }
    rewrite Hb'. clear Hb' Hhs.
    induction ha as [|[r' b'] ha IHa]; simpl in *; [discriminate|].
    destruct (str_eqb r' r); [congruence|]. f_equal; auto.
  - cbn [for_each titles]. unfold add_hero at 1.
    destruct (title a) as [t|]; [|reflexivity].
    unfold getitem. rewrite Hb. cbn [bind]. rewrite Hhs. cbn [bind].
    rewrite (IH _ (set Z.eqb b l (hs ++ [t])) (hs ++ [t])).
    + destruct (titles td) as [ts|]; [|reflexivity].
      rewrite (set_set str_eqb_eq), (set_set Z_eqb_eq), <- app_assoc.
      reflexivity.
    + apply get_set_same, str_eqb_eq.
    + apply get_set_same, Z_eqb_eq.
Qed.

Lemma add_header_eq (ha : attributes) (h : th) :
  add_header ha h
  = match find_next_td h with
    | None => Raise AttributeError
    | Some td =>
        match titles td with
        | Some ts => Ok (with_header ha h ts)
        | None => Raise KeyError
        end
    end.
Proof.
  unfold add_header. rewrite open_level_eq. cbn [bind].
  destruct (find_next_td h) as [td|]; [|reflexivity]. cbn [bind].
  rewrite (add_heroes_eq _ _ td _
             (set Z.eqb (bylevel_of ha (role_of (get_text h)))
                  (level_of (get_text h)) []) []).
  - destruct (titles td); [|reflexivity].
    rewrite (set_set str_eqb_eq), (set_set Z_eqb_eq). reflexivity.
  - apply get_set_same, str_eqb_eq.
  - apply get_set_same, Z_eqb_eq.
Qed.

Lemma add_header_Ok (ha ha' : attributes) (h : th) :
  add_header ha h = Ok ha' ->
  exists ts, heroes_of h = Some ts /\ ha' = with_header ha h ts.
Proof.
  rewrite add_header_eq. unfold heroes_of.
  destruct (find_next_td h) as [td|]; [|discriminate].
  destruct (titles td) as [ts|]; [|discriminate].
  intros H; inversion H. exists ts; auto.
Qed.

Lemma collect_snoc (page : soup) (h : th) :
  collect (page ++ [h]) = bind (collect page) (fun ha => add_header ha h).
Proof.
  unfold collect. rewrite for_each_app.
  destruct (for_each add_header page []); simpl; [|reflexivity].
  destruct (add_header a h); reflexivity.
Qed.

Lemma bylevel_of_with_header (ha : attributes) (h : th) (ts : list pystr) (r : pystr) :
  bylevel_of (with_header ha h ts) r
  = if str_eqb (role h) r
    then set Z.eqb (bylevel_of ha (role h)) (level h) ts
    else bylevel_of ha r.
Proof.
  unfold with_header. unfold bylevel_of at 1.
  destruct (str_eqb (role h) r) eqn:E.
  - apply str_eqb_eq in E; subst r. rewrite (get_set_same str_eqb_eq). reflexivity.
  - apply str_eqb_neq in E. rewrite (get_set_other str_eqb_eq) by assumption.
    reflexivity.
Qed.

(** What [collect] leaves: the roles in first-seen order, under each role
    its levels in first-seen order, under each level the heroes of the last
    header cell of that role and level. *)
Lemma collect_spec (page : soup) :
  forall ha, collect page = Ok ha ->
    keys ha = roles page
    /\ Forall (fun h => heroes_of h <> None) page
    /\ forall r,
         keys (bylevel_of ha r)
         = first_seen Z.eqb
             (List.map level (filter (fun h => str_eqb (role h) r) page))
         /\ forall l, get Z.eqb (bylevel_of ha r) l = listed page r l.
Proof.
  induction page as [|h page IH] using rev_ind; intros ha Hc.
  - inversion Hc; subst. repeat split; auto.
  - rewrite collect_snoc in Hc. destruct (collect page) as [ha0|] eqn:E0; [|discriminate].
    cbn [bind] in Hc. apply add_header_Ok in Hc. destruct Hc as [ts [Hts ->]].
    destruct (IH ha0 eq_refl) as [Hk [Hwf Hlev]]. split; [|split].
    + unfold with_header, roles. rewrite keys_set, map_app. cbn [List.map].
      rewrite (first_seen_snoc str_eqb_eq). fold (roles page). rewrite Hk.
      destruct (existsb (str_eqb (role h)) (List.map role page)) eqn:E.
      * rewrite (proj2 (contains_In str_eqb_eq _ _)); [reflexivity|].
        rewrite Hk. apply (In_first_seen str_eqb_eq).
        apply (existsb_eqb_In str_eqb_eq); assumption.
      * rewrite (proj2 (contains_false str_eqb_eq _ _)); [reflexivity|].
        rewrite Hk. unfold roles. rewrite (In_first_seen str_eqb_eq).
        apply (existsb_eqb_notin str_eqb_eq); assumption.
    + apply Forall_app; split; [assumption|]. constructor; [congruence|constructor].
    + intros r. rewrite bylevel_of_with_header.
      destruct (Hlev r) as [Hkr Hgr]. rewrite filter_app. cbn [filter].
      unfold listed, last_header. rewrite rev_app_distr. cbn [rev app find].
      destruct (str_eqb (role h) r) eqn:E.
      * apply str_eqb_eq in E; subst r. split.
        -- rewrite keys_set, map_app. cbn [List.map].
           rewrite (first_seen_snoc Z_eqb_eq), <- Hkr.
           match goal with |- context [existsb ?f ?l] => destruct (existsb f l) eqn:E end.
           ++ rewrite (proj2 (contains_In Z_eqb_eq _ _)); [reflexivity|].
              rewrite Hkr. apply (In_first_seen Z_eqb_eq).
              apply (existsb_eqb_In Z_eqb_eq); assumption.
           ++ rewrite (proj2 (contains_false Z_eqb_eq _ _)); [reflexivity|].
              rewrite Hkr, (In_first_seen Z_eqb_eq).
              apply (existsb_eqb_notin Z_eqb_eq); assumption.
        -- intros l. cbn [andb]. destruct (Z.eqb (level h) l) eqn:El.
           ++ apply Z.eqb_eq in El; subst l. rewrite (get_set_same Z_eqb_eq).
              symmetry; exact Hts.
           ++ apply Z.eqb_neq in El. rewrite (get_set_other Z_eqb_eq) by assumption.
              apply Hgr.
      * rewrite app_nil_r. split; [assumption|]. intros l. cbn [andb]. apply Hgr.
Qed.

(** *** The pivot goes through the triples of the accumulator *)

Lemma for_each_map {A B S : Type} (f : S -> B -> result S) (g : A -> B)
      (l : list A) (s : S) :
  for_each f (List.map g l) s = for_each (fun s x => f s (g x)) l s.
Proof.
  revert s; induction l as [|x l IH]; intros s; simpl; [reflexivity|].
  destruct (f s (g x)); simpl; auto.
Qed.

Lemma for_each_flat_map {A B S : Type} (f : S -> B -> result S)
      (g : A -> list B) (l : list A) (s : S) :
  for_each f (flat_map g l) s = for_each (fun s x => for_each f (g x) s) l s.
Proof.
  revert s; induction l as [|x l IH]; intros s; simpl; [reflexivity|].
  rewrite for_each_app. destruct (for_each f (g x) s); simpl; auto.
Qed.

Lemma wf_bylevel_of (ha : attributes) (r : pystr) :
  wf_attributes ha -> NoDup (keys (bylevel_of ha r)).
Proof.
  intros [_ H]. unfold bylevel_of. destruct (get str_eqb ha r) as [b|] eqn:E.
  - apply (H r). apply (get_In str_eqb_eq); assumption.
  - constructor.
Qed.

Lemma pivot_levels_eq (ha : attributes) (r : pystr) (b : levels) :
  get str_eqb ha r = Some b ->
  NoDup (keys b) ->
  forall rows,
    for_each (pivot_level ha r) (keys b) rows
    = for_each place
        (flat_map (fun lh => List.map (fun hero => (r, fst lh, hero)) (snd lh)) b)
        rows.
Proof.
  intros Hb Hnd rows. unfold keys. rewrite for_each_map, for_each_flat_map.
  apply for_each_ext. intros rows' [l hs] Hin. cbn [fst snd].
  unfold pivot_level, getitem. rewrite Hb. cbn [bind].
  rewrite (In_get Z_eqb_eq b l hs Hnd Hin). cbn [bind].
  rewrite for_each_map. reflexivity.
Qed.

Lemma pivot_roles_eq (ha : attributes) (part : attributes) :
  (forall r b, In (r, b) part -> get str_eqb ha r = Some b /\ NoDup (keys b)) ->
  forall rows totalrolelist,
    for_each (pivot_role ha) (keys part) (rows, totalrolelist)
    = bind (for_each place (associations part) rows)
           (fun rows' => Ok (rows', totalrolelist ++ keys part)).
Proof.
  induction part as [|[r b] part IH]; intros H rows total.
  - simpl. rewrite app_nil_r. reflexivity.
  - cbn [keys List.map fst for_each associations flat_map snd].
    destruct (H r b (or_introl eq_refl)) as [Hb Hnd].
    unfold pivot_role at 1. unfold getitem. rewrite Hb. cbn [bind].
    rewrite (pivot_levels_eq ha r b Hb Hnd), for_each_app.
    destruct (for_each place _ rows) as [rows'|e]; cbn [bind]; [|reflexivity].
    fold (keys part). rewrite IH by (intros; apply H; right; assumption).
    fold (associations part).
    destruct (for_each place (associations part) rows'); cbn [bind]; [|reflexivity].
    rewrite <- app_assoc. reflexivity.
Qed.

Lemma pivot_eq (ha : attributes) :
  wf_attributes ha ->
  pivot ha = bind (for_each place (associations ha) [])
                  (fun rows => Ok (rows, keys ha)).
Proof.
  intros [Hnd Hb]. unfold pivot. apply pivot_roles_eq.
  intros r b Hin. split; [apply (In_get str_eqb_eq); assumption | eapply Hb; eassumption].
Qed.

Lemma collect_wf (page : soup) (ha : attributes) :
  collect page = Ok ha -> wf_attributes ha.
Proof.
  intros Hc. destruct (collect_spec page ha Hc) as [Hk [_ Hl]].
  assert (Hnd : NoDup (keys ha))
    by (rewrite Hk; apply (NoDup_first_seen str_eqb_eq)).
  split; [assumption|]. intros r b Hin.
  apply (In_get str_eqb_eq) in Hin; [|assumption].
  destruct (Hl r) as [Hkr _]. unfold bylevel_of in Hkr. rewrite Hin in Hkr.
  rewrite Hkr. apply (NoDup_first_seen Z_eqb_eq).
Qed.

(** *** The rows of the pivot *)

Lemma value_eqb_eq (v w : value) : value_eqb v w = true <-> v = w.
Proof.
  destruct v as [s|n], w as [t|m]; simpl; try (split; discriminate).
  - rewrite str_eqb_eq. split; congruence.
  - rewrite Z.eqb_eq. split; congruence.
Qed.

(** The search either updates the first row named [hero] or changes
    nothing. *)
Lemma find_row_spec (hero r : pystr) (l : Z) (rows : list dfrow) :
  Forall (fun row => get str_eqb row Hero <> None) rows ->
  (exists before row after,
      rows = before ++ row :: after
      /\ get str_eqb row Hero = Some (VStr hero)
      /\ Forall (fun row' => get str_eqb row' Hero <> Some (VStr hero)) before
      /\ find_row rows hero r l
         = Ok (before ++ set str_eqb row r (VInt l) :: after, true))
  \/ (Forall (fun row' => get str_eqb row' Hero <> Some (VStr hero)) rows
      /\ find_row rows hero r l = Ok (rows, false)).
Proof.
  induction 1 as [|row rows Hrow Hrows IH].
  - right. split; [constructor | reflexivity].
  - cbn [find_row]. unfold getitem.
    destruct (get str_eqb row Hero) as [v|] eqn:Ev; [|contradiction]. cbn [bind].
    destruct (value_eqb v (VStr hero)) eqn:E.
    + apply value_eqb_eq in E; subst v. left. exists [], row, rows.
      repeat split; auto.
    + assert (Hv : v <> VStr hero)
        by (intros ->; rewrite (proj2 (value_eqb_eq _ _) eq_refl) in E; discriminate).
      destruct IH as [[before [row' [after [H1 [H2 [H3 H4]]]]]]|[H1 H2]].
      * left. exists (row :: before), row', after. subst rows. repeat split; auto.
        -- constructor; [congruence | assumption].
        -- rewrite H4. reflexivity.
      * right. split.
        -- constructor; [congruence | assumption].
        -- rewrite H2. reflexivity.
Qed.

Lemma row_ok_incl (P Q : list (pystr * Z * pystr)) (row : dfrow) :
  incl P Q -> row_ok P row -> row_ok Q row.
Proof.
  intros Hi [H1 [H2 H3]]. split; [assumption|]. split.
  - intros k Hk. destruct (H2 k Hk) as [?|[l [h ?]]]; [left; assumption|].
    right. exists l, h. auto.
  - intros h Hh r v Hr Hv. destruct (H3 h Hh r v Hr Hv) as [l [? ?]].
    exists l. auto.
Qed.

Lemma row_ok_updated (P : list (pystr * Z * pystr)) (row : dfrow)
      (r hero : pystr) (l : Z) :
  row_ok P row ->
  get str_eqb row Hero = Some (VStr hero) ->
  row_ok (P ++ [(r, l, hero)]) (set str_eqb row r (VInt l)).
Proof.
  intros [H1 [H2 H3]] Hname.
  assert (Hlast : In (r, l, hero) (P ++ [(r, l, hero)]))
    by (apply in_or_app; right; left; reflexivity).
  split; [|split].
  - destruct (list_eq_dec N.eq_dec r Hero) as [->|Hn].
    + rewrite (get_set_same str_eqb_eq). discriminate.
    + rewrite (get_set_other str_eqb_eq) by assumption. assumption.
  - intros k. rewrite keys_set.
    destruct (contains str_eqb row r); [|rewrite in_app_iff; intros [Hk|[<-|[]]]].
    + intros Hk. destruct (H2 k Hk) as [?|[l' [h ?]]]; [left; assumption|].
      right. exists l', h. apply in_or_app; auto.
    + destruct (H2 k Hk) as [?|[l' [h ?]]]; [left; assumption|].
      right. exists l', h. apply in_or_app; auto.
    + right. exists l, hero. assumption.
  - intros h Hh r' v Hr' Hv.
    destruct (list_eq_dec N.eq_dec r Hero) as [->|Hn].
    + rewrite (get_set_same str_eqb_eq) in Hh. discriminate.
    + rewrite (get_set_other str_eqb_eq) in Hh by assumption.
      assert (h = hero) by congruence. subst h.
      destruct (list_eq_dec N.eq_dec r r') as [<-|Hn'].
      * rewrite (get_set_same str_eqb_eq) in Hv. inversion Hv; subst.
        exists l. auto.
      * rewrite (get_set_other str_eqb_eq) in Hv by assumption.
        destruct (H3 hero Hname r' v Hr' Hv) as [l' [? ?]].
        exists l'. split; [assumption | apply in_or_app; auto].
Qed.

Lemma row_ok_new (P : list (pystr * Z * pystr)) (r hero : pystr) (l : Z) :
  row_ok (P ++ [(r, l, hero)]) (set str_eqb [(Hero, VStr hero)] r (VInt l)).
Proof.
  assert (Hlast : In (r, l, hero) (P ++ [(r, l, hero)]))
    by (apply in_or_app; right; left; reflexivity).
  cbn [set]. destruct (str_eqb Hero r) eqn:E.
  - apply str_eqb_eq in E; subst r. split; [|split].
    + cbn [get]. rewrite str_eqb_refl. discriminate.
    + intros k [<-|[]]. left; reflexivity.
    + cbn [get]. rewrite str_eqb_refl. discriminate.
  - assert (Hn : Hero <> r) by (apply str_eqb_neq; assumption).
    split; [|split].
    + cbn [get]. rewrite str_eqb_refl. discriminate.
    + intros k [<-|[<-|[]]]; [left; reflexivity|]. right. exists l, hero. assumption.
    + intros h. cbn [get]. rewrite str_eqb_refl. intros Hh; inversion Hh; subst h.
      intros r' v Hr'.
      rewrite (proj2 (str_eqb_neq Hero r')) by congruence.
      destruct (str_eqb r r') eqn:E'; [|discriminate].
      apply str_eqb_eq in E'; subst r'. intros Hv; inversion Hv; subst.
      exists l. auto.
Qed.

(** The pivot does not fail, and every row it leaves is as [row_ok] says. *)
Lemma place_all_ok (P : list (pystr * Z * pystr)) :
  exists rows, for_each place P [] = Ok rows /\ Forall (row_ok P) rows.
Proof.
  induction P as [|[[r l] hero] P IH] using rev_ind.
  - exists []. split; [reflexivity | constructor].
  - destruct IH as [rows [Hrows Hok]]. rewrite for_each_app, Hrows. cbn [bind for_each].
    unfold place, place_hero. cbn [fst snd].
    assert (Hnames : Forall (fun row => get str_eqb row Hero <> None) rows)
      by (eapply Forall_impl; [|exact Hok]; intros row H; apply H).
    assert (Hmono : Forall (row_ok (P ++ [(r, l, hero)])) rows).
    { eapply Forall_impl; [|exact Hok]. intros row. apply row_ok_incl.
      intros t Ht. apply in_or_app; auto. }
    destruct (find_row_spec hero r l rows Hnames)
      as [[before [row [after [H1 [H2 [H3 H4]]]]]]|[H1 H2]].
    + rewrite H4. cbn [bind fst snd]. eexists. split; [reflexivity|].
      subst rows. apply Forall_app in Hok. destruct Hok as [Hb Ha].
      apply Forall_app in Hmono. destruct Hmono as [Hb' Ha'].
      inversion Ha; subst. inversion Ha'; subst.
      apply Forall_app. split; [assumption|]. constructor; [|assumption].
      apply row_ok_updated; assumption.
    + rewrite H2. cbn [bind fst snd]. eexists. split; [reflexivity|].
      apply Forall_app. split; [assumption|]. constructor; [|constructor].
      apply row_ok_new.
Qed.

(** *** Filling with zeros *)

Lemma fill_zero_map (totalrolelist : list pystr) :
  forall rows, fill_zero totalrolelist rows = List.map (fill_row totalrolelist) rows.
Proof.
  unfold fill_zero, fill_row.
  induction totalrolelist as [|r roles IH]; intros rows; cbn [fold_left].
  - rewrite map_id. reflexivity.
  - rewrite IH, map_map. reflexivity.
Qed.

Lemma get_fill_row (totalrolelist : list pystr) (k : pystr) :
  forall row,
    get str_eqb (fill_row totalrolelist row) k
    = match get str_eqb row k with
      | Some v => Some v
      | None => if existsb (str_eqb k) totalrolelist then Some (VInt 0) else None
      end.
Proof.
  induction totalrolelist as [|r roles IH]; intros row.
  - simpl. destruct (get str_eqb row k); reflexivity.
  - cbn [fill_row fold_left existsb]. fold (fill_row roles).
    destruct (contains str_eqb row r) eqn:Ec.
    + rewrite IH. destruct (get str_eqb row k) eqn:Ek; [reflexivity|].
      destruct (str_eqb k r) eqn:E; [|reflexivity].
      apply str_eqb_eq in E; subst k. unfold contains in Ec. rewrite Ek in Ec.
      discriminate.
    + rewrite IH. destruct (str_eqb k r) eqn:E.
      * apply str_eqb_eq in E; subst k. rewrite (get_set_same str_eqb_eq).
        unfold contains in Ec. destruct (get str_eqb row r); [discriminate|reflexivity].
      * apply str_eqb_neq in E.
        rewrite (get_set_other str_eqb_eq) by congruence. reflexivity.
Qed.

Lemma contains_set_other (row : dfrow) (r k : pystr) (v : value) :
  r <> k -> contains str_eqb (set str_eqb row r v) k = contains str_eqb row k.
Proof.
  intros Hn. unfold contains. rewrite (get_set_other str_eqb_eq) by assumption.
  reflexivity.
Qed.

Lemma keys_fill_row (totalrolelist : list pystr) :
  NoDup totalrolelist ->
  forall row,
    keys (fill_row totalrolelist row)
    = keys row
      ++ filter (fun r => negb (contains str_eqb row r)) totalrolelist.
Proof.
  induction 1 as [|r roles Hr Hnd IH]; intros row.
  - simpl. rewrite app_nil_r. reflexivity.
  - cbn [fill_row fold_left filter]. fold (fill_row roles).
    destruct (contains str_eqb row r) eqn:Ec; cbn [negb]; [apply IH|].
    rewrite IH, keys_set, Ec, <- app_assoc. cbn [app]. do 2 f_equal.
    apply filter_ext_in. intros k Hk. rewrite contains_set_other; [reflexivity|].
    intros ->; contradiction.
Qed.

(** *** The frame *)

Lemma get_combine_map {B : Type} (f : pystr -> B) (c : pystr) (cols : list pystr) :
  get str_eqb (combine cols (List.map f cols)) c
  = if existsb (str_eqb c) cols then Some (f c) else None.
Proof.
  induction cols as [|c' cols IH]; [reflexivity|].
  cbn [List.map combine get existsb].
  destruct (str_eqb c' c) eqn:E.
  - apply str_eqb_eq in E; subst c'. rewrite str_eqb_refl. reflexivity.
  - rewrite IH. apply str_eqb_neq in E.
    rewrite (proj2 (str_eqb_neq c c')) by congruence. reflexivity.
Qed.

(** The frame of a page that is read without failure: its rows are the
    rows of the pivot, filled, read at the columns of the frame. *)
Lemma df_spec (page : soup) (frame : DataFrame) :
  df page = Ok frame ->
  exists ha rows,
    collect page = Ok ha
    /\ for_each place (associations ha) [] = Ok rows
    /\ Forall (row_ok (associations ha)) rows
    /\ frame = mkDataFrame (List.map (fill_row (roles page)) rows).
Proof.
  unfold df, records. destruct (collect page) as [ha|] eqn:Hc; [|discriminate].
  cbn [bind]. rewrite (pivot_eq ha (collect_wf page ha Hc)).
  destruct (place_all_ok (associations ha)) as [rows [Hrows Hok]].
  rewrite Hrows. cbn [bind fst snd]. intros H; inversion H; subst frame.
  exists ha, rows. repeat split; auto.
  rewrite fill_zero_map. destruct (collect_spec page ha Hc) as [-> _]. reflexivity.
Qed.

Lemma loc_mkDataFrame (rows : list dfrow) (row : dfrow) (c : pystr) (v : value) :
  In row rows ->
  get str_eqb row c = Some v ->
  loc (mkDataFrame rows)
      (List.map (get str_eqb row) (columns (mkDataFrame rows))) c
  = Some (Some v).
Proof.
  intros Hin E. unfold loc. rewrite get_combine_map, E.
  cbn [mkDataFrame columns]. rewrite fast_unique_first_seen.
  rewrite (proj2 (existsb_eqb_In str_eqb_eq c _)); [reflexivity|].
  apply (In_first_seen str_eqb_eq). apply in_flat_map. exists row.
  split; [assumption | eapply get_Some_In; [apply str_eqb_eq | eassumption]].
Qed.

Lemma loc_mkDataFrame_inv (rows : list dfrow) (row : dfrow) (c : pystr)
      (cell : option value) :
  loc (mkDataFrame rows)
      (List.map (get str_eqb row) (columns (mkDataFrame rows))) c
  = Some cell ->
  get str_eqb row c = cell.
Proof.
  unfold loc. rewrite get_combine_map.
  destruct (existsb _ _); [|discriminate]. intros H; inversion H; reflexivity.
Qed.

(** *** From the triples back to the page *)

Lemma titles_In (td : list a_tag) :
  forall ts h, titles td = Some ts ->
               (In h ts <-> In {| title := Some h |} td).
Proof.
  induction td as [|[t] td IH]; intros ts h; cbn [titles title].
  - intros H; inversion H; subst. simpl. tauto.
  - destruct t as [t|]; [|discriminate].
    destruct (titles td) as [ts'|]; [|discriminate].
    intros H; inversion H; subst. simpl. rewrite (IH ts' h eq_refl).
    split; intros [H1|H1]; auto; left; congruence.
Qed.

Lemma last_header_Some (page : soup) (r : pystr) (l : Z) (h : th) :
  last_header page r l = Some h -> In h page /\ role h = r /\ level h = l.
Proof.
  unfold last_header. intros H. apply find_some in H. destruct H as [H1 H2].
  apply andb_prop in H2. destruct H2 as [H2 H3].
  apply str_eqb_eq in H2. apply Z.eqb_eq in H3. apply in_rev in H1. auto.
Qed.

Lemma listed_links (page : soup) (r : pystr) (l : Z) (hs : list pystr) (hero : pystr) :
  listed page r l = Some hs -> In hero hs ->
  exists h, last_header page r l = Some h /\ links h hero.
Proof.
  unfold listed. destruct (last_header page r l) as [h|]; [|discriminate].
  intros Hh Hin. exists h. split; [reflexivity|].
  unfold heroes_of in Hh. unfold links.
  destruct (find_next_td h) as [td|]; [|discriminate].
  exists td. split; [reflexivity|]. apply (titles_In td hs hero Hh). assumption.
Qed.

Lemma In_associations (ha : attributes) (r : pystr) (l : Z) (hero : pystr) :
  In (r, l, hero) (associations ha)
  <-> exists b hs, In (r, b) ha /\ In (l, hs) b /\ In hero hs.
Proof.
  unfold associations. rewrite in_flat_map. split.
  - intros [[r' b] [H1 H2]]. cbn [fst snd] in H2. apply in_flat_map in H2.
    destruct H2 as [[l' hs] [H2 H3]]. cbn [fst snd] in H3. apply in_map_iff in H3.
    destruct H3 as [h' [H3 H4]]. inversion H3; subst. exists b, hs. auto.
  - intros [b [hs [H1 [H2 H3]]]]. exists (r, b). split; [assumption|].
    cbn [fst snd]. apply in_flat_map. exists (l, hs). split; [assumption|].
    cbn [fst snd]. apply in_map_iff. exists hero. auto.
Qed.

Lemma associations_listed (page : soup) (ha : attributes) (r : pystr) (l : Z)
      (hero : pystr) :
  collect page = Ok ha ->
  (In (r, l, hero) (associations ha)
   <-> exists hs, listed page r l = Some hs /\ In hero hs).
Proof.
  intros Hc. destruct (collect_wf page ha Hc) as [Hnd Hb].
  destruct (collect_spec page ha Hc) as [_ [_ Hl]]. destruct (Hl r) as [_ Hg].
  rewrite In_associations. split.
  - intros [b [hs [H1 [H2 H3]]]]. exists hs. split; [|assumption].
    rewrite <- Hg. unfold bylevel_of.
    rewrite (In_get str_eqb_eq ha r b Hnd H1).
    apply (In_get Z_eqb_eq); [eapply Hb; eassumption | assumption].
  - intros [hs [H1 H2]]. rewrite <- Hg in H1. unfold bylevel_of in H1.
    destruct (get str_eqb ha r) as [b|] eqn:E; [|discriminate].
    exists b, hs. repeat split; [| |assumption].
    + apply (get_In str_eqb_eq); assumption.
    + apply (get_In Z_eqb_eq); assumption.
Qed.

Lemma associations_associated (page : soup) (ha : attributes) (r : pystr) (l : Z)
      (hero : pystr) :
  collect page = Ok ha ->
  In (r, l, hero) (associations ha) ->
  associated page hero r.
Proof.
  intros Hc Hin. apply (associations_listed page ha r l hero Hc) in Hin.
  destruct Hin as [hs [H1 H2]].
  destruct (listed_links page r l hs hero H1 H2) as [h [H3 H4]].
  apply last_header_Some in H3. exists h. tauto.
Qed.

(** A line of the frame is a filled row of the pivot. *)
Lemma line_of_frame (page : soup) (frame : DataFrame) (line : list (option value)) :
  df page = Ok frame ->
  In line (values frame) ->
  exists ha rows row,
    collect page = Ok ha
    /\ Forall (row_ok (associations ha)) rows
    /\ In row rows
    /\ frame = mkDataFrame (List.map (fill_row (roles page)) rows)
    /\ line = List.map (get str_eqb (fill_row (roles page) row)) (columns frame).
Proof.
  intros Hdf Hline. destruct (df_spec page frame Hdf) as [ha [rows [Hc [_ [Hok ->]]]]].
  cbn [mkDataFrame values] in Hline. apply in_map_iff in Hline.
  destruct Hline as [row' [<- Hrow']]. apply in_map_iff in Hrow'.
  destruct Hrow' as [row [<- Hrow]]. exists ha, rows, row. repeat split; auto.
Qed.

Lemma name_of_filled (P : list (pystr * Z * pystr)) (roles : list pystr)
      (row : dfrow) (cell : option value) :
  row_ok P row ->
  get str_eqb (fill_row roles row) Hero = cell ->
  get str_eqb row Hero = cell.
Proof.
  intros [H _]. rewrite get_fill_row.
  destruct (get str_eqb row Hero); [auto | contradiction].
Qed.

(** X19: in the frame, the row of a hero holds the integer 0 in the column
    of every role of the page under which no header cell links the hero,
    for every role but one named "Hero", whose column is the column of the
    names. *)
Theorem unlisted_role_is_zero :
  forall (page : soup) (frame : DataFrame) (line : list (option value))
         (hero r : pystr),
    df page = Ok frame ->
    In line (values frame) ->
    loc frame line Hero = Some (Some (VStr hero)) ->
    In r (roles page) ->
    r <> Hero ->
    ~ associated page hero r ->
    loc frame line r = Some (Some (VInt 0)).
Proof.
  intros page frame line hero r Hdf Hline Hname Hr Hn Hnot.
  destruct (line_of_frame page frame line Hdf Hline)
    as [ha [rows [row [Hc [Hok [Hrow [-> ->]]]]]]].
  rewrite Forall_forall in Hok. specialize (Hok row Hrow).
  apply loc_mkDataFrame_inv in Hname. apply (name_of_filled _ _ _ _ Hok) in Hname.
  apply loc_mkDataFrame; [apply in_map; assumption|].
  rewrite get_fill_row. destruct (get str_eqb row r) as [v|] eqn:Ev.
  - exfalso. destruct Hok as [_ [_ H3]].
    destruct (H3 hero Hname r v Hn Ev) as [l [_ Hin]].
    apply Hnot. eapply associations_associated; eassumption.
  - rewrite (proj2 (existsb_eqb_In str_eqb_eq r _)); [reflexivity | assumption].
Qed.

Lemma unlisted_role_is_zero_witness :
  let page := [header (str "Carry " ++ marker) [str "A"];
               header (str "Support " ++ marker) [str "B"]] in
  let line := [Some (VStr (str "A")); Some (VInt 1); Some (VInt 0)] in
  let frame :=
    {| columns := [Hero; str "Carry"; str "Support"];
       values := [line; [Some (VStr (str "B")); Some (VInt 0); Some (VInt 1)]] |} in
  loc frame line (str "Support") = Some (Some (VInt 0)).
Proof.
  intros page line frame.
  apply (unlisted_role_is_zero page frame line (str "A") (str "Support")).
  - vm_compute; reflexivity.
  - left; reflexivity.
  - vm_compute; reflexivity.
  - vm_compute; auto.
  - vm_compute; discriminate.
  - not_associated.
Defined.

(** C6: the script misses the zero it means to allocate (comment on line
    52) when a role is named "Hero", the key under which a row keeps its
    name. The page has a header cell "Hero", no cell of that role links hero
    Y, and the row of Y holds the name of Y, not 0, in the column "Hero":
    line 55 finds the key present and writes nothing. *)
Lemma hero_column_is_not_zero :
  let page := [header (str "Hero") [];
               header (str "Carry " ++ marker) [str "Y"]] in
  let line := [Some (VStr (str "Y")); Some (VInt 1)] in
  let frame := {| columns := [Hero; str "Carry"]; values := [line] |} in
  df page = Ok frame
  /\ In line (values frame)
  /\ loc frame line Hero = Some (Some (VStr (str "Y")))
  /\ In Hero (roles page)
  /\ ~ associated page (str "Y") Hero
  /\ loc frame line Hero <> Some (Some (VInt 0)).
Proof.
  intros page line frame. repeat split.
  - left; reflexivity.
  - vm_compute; auto.
  - not_associated.
  - vm_compute; discriminate.
Qed.

Lemma find_app_Some {A : Type} (p : A -> bool) (l1 l2 : list A) (x : A) :
  find p l1 = Some x -> find p (l1 ++ l2) = Some x.
Proof.
  induction l1 as [|a l1 IH]; simpl; [discriminate|].
  destruct (p a); auto.
Qed.

Lemma find_snoc_hit {A : Type} (p : A -> bool) (l : list A) (x : A) :
  p x = true -> exists y, find p (l ++ [x]) = Some y.
Proof.
  intros Hx. induction l as [|a l IH]; simpl.
  - rewrite Hx. eauto.
  - destruct (p a); eauto.
Qed.

(** The cells before the last cell of a role and level do not count. *)
Lemma last_header_suffix (before after : soup) (h : th) :
  last_header (before ++ h :: after) (role h) (level h)
  = last_header (h :: after) (role h) (level h).
Proof.
  unfold last_header. rewrite rev_app_distr. cbn [rev].
  destruct (find_snoc_hit
              (fun h' => str_eqb (role h') (role h) && Z.eqb (level h') (level h))
              (rev after) h) as [y Hy].
  - rewrite str_eqb_refl, Z.eqb_refl. reflexivity.
  - rewrite Hy. apply find_app_Some. assumption.
Qed.

(** C9, as the code has it. When two header cells stand for the same role
    and level: handling a header cell first sets the list of its role and
    level to the empty list; the list the accumulator ends with is the
    list of the last such cell, whatever came before it; and a row of the
    frame that holds that level under that role, the level being at least
    1, is the row of a hero linked from the last such cell. *)
Theorem repeated_header_resets_list :
  forall (before : soup) (h1 : th) (between : soup) (h2 : th) (after : soup),
    role h1 = role h2 ->
    level h1 = level h2 ->
    let page := before ++ h1 :: between ++ h2 :: after in
    (forall ha, exists ha',
        open_level ha (role h2) (level h2) = Ok ha'
        /\ get Z.eqb (bylevel_of ha' (role h2)) (level h2) = Some [])
    /\ (forall ha, collect page = Ok ha ->
          get Z.eqb (bylevel_of ha (role h2)) (level h2)
          = listed (h2 :: after) (role h2) (level h2))
    /\ (forall frame line hero,
          df page = Ok frame ->
          In line (values frame) ->
          loc frame line Hero = Some (Some (VStr hero)) ->
          loc frame line (role h2) = Some (Some (VInt (level h2))) ->
          level h2 <> 0%Z ->
          exists h, last_header (h2 :: after) (role h2) (level h2) = Some h
                    /\ links h hero).
Proof.
  intros before h1 between h2 after Hrole Hlevel page.
  assert (Hlast : last_header page (role h2) (level h2)
                  = last_header (h2 :: after) (role h2) (level h2)).
  { unfold page.
    change (before ++ h1 :: between ++ h2 :: after)
      with (before ++ (h1 :: between) ++ h2 :: after).
    rewrite app_assoc. apply last_header_suffix. }
  split; [|split].
  - intros ha. rewrite open_level_eq. eexists. split; [reflexivity|].
    unfold bylevel_of. rewrite (get_set_same str_eqb_eq).
    apply (get_set_same Z_eqb_eq).
  - intros ha Hc. destruct (collect_spec page ha Hc) as [_ [_ Hl]].
    destruct (Hl (role h2)) as [_ Hg]. rewrite Hg. unfold listed.
    rewrite Hlast. reflexivity.
  - intros frame line hero Hdf Hline Hname Hcell Hpos.
    destruct (line_of_frame page frame line Hdf Hline)
      as [ha [rows [row [Hc [Hok [Hrow [-> ->]]]]]]].
    rewrite Forall_forall in Hok. specialize (Hok row Hrow).
    apply loc_mkDataFrame_inv in Hname. apply loc_mkDataFrame_inv in Hcell.
    apply (name_of_filled _ _ _ _ Hok) in Hname.
    assert (Hn : role h2 <> Hero).
    { intros E. rewrite E in Hcell. apply (name_of_filled _ _ _ _ Hok) in Hcell.
      congruence. }
    rewrite get_fill_row in Hcell.
    destruct (get str_eqb row (role h2)) as [v|] eqn:Ev.
    + inversion Hcell; subst v. destruct Hok as [_ [_ H3]].
      destruct (H3 hero Hname (role h2) _ Hn Ev) as [l [El Hin]].
      inversion El; subst l.
      apply (associations_listed page ha _ _ _ Hc) in Hin.
      destruct Hin as [hs [H1 H2]].
      destruct (listed_links page _ _ hs hero H1 H2) as [h [H4 H5]].
      exists h. split; [rewrite <- Hlast | ]; assumption.
    + destruct (existsb _ _); [|discriminate]. inversion Hcell. congruence.
Qed.

Lemma repeated_header_resets_list_witness :
  let h1 := header (str "Carry " ++ marker) [str "A"] in
  let h2 := header (str "Carry " ++ marker) [str "B"] in
  exists h, last_header [h2] (role h2) (level h2) = Some h /\ links h (str "B").
Proof.
  intros h1 h2.
  apply (proj2 (proj2 (repeated_header_resets_list [] h1 [] h2 [] eq_refl eq_refl))
           {| columns := [Hero; str "Carry"];
              values := [[Some (VStr (str "B")); Some (VInt 1)]] |}
           [Some (VStr (str "B")); Some (VInt 1)] (str "B")).
  - vm_compute; reflexivity.
  - left; reflexivity.
  - vm_compute; reflexivity.
  - vm_compute; reflexivity.
  - vm_compute; discriminate.
Defined.

(** C9, as it is stated, fails at level 0. Two header cells "Carry" without
    a marker stand for level 0; hero A is linked from the first only, and
    from a cell of another role. The row of A holds 0 under Carry, the level
    of the two cells, though the last of them does not link A. *)
Lemma unlisted_hero_shows_at_level_zero :
  let h1 := header (str "Carry") [str "A"] in
  let h2 := header (str "Carry") [str "B"] in
  let page := [h1; h2; header (str "Support " ++ marker) [str "A"]] in
  let line := [Some (VStr (str "A")); Some (VInt 0); Some (VInt 1)] in
  let frame :=
    {| columns := [Hero; str "Carry"; str "Support"];
       values := [[Some (VStr (str "B")); Some (VInt 0); Some (VInt 0)]; line] |} in
  role h1 = role h2
  /\ level h1 = level h2
  /\ df page = Ok frame
  /\ In line (values frame)
  /\ loc frame line Hero = Some (Some (VStr (str "A")))
  /\ loc frame line (role h2) = Some (Some (VInt (level h2)))
  /\ last_header page (role h2) (level h2) = Some h2
  /\ ~ links h2 (str "A").
Proof.
  intros h1 h2 page line frame. repeat split.
  - right; left; reflexivity.
  - intros [td [Htd Hlink]]. vm_compute in Htd. inversion Htd; subst td.
    vm_compute in Hlink. destruct Hlink as [Hlink|[]]. discriminate Hlink.
Qed.

(** *** The rows of the pivot when no role is named "Hero" *)

Lemma last_level_snoc (P : list (pystr * Z * pystr)) (t : pystr * Z * pystr)
      (r h : pystr) :
  last_level (P ++ [t]) r h
  = if about r h t then Some (snd (fst t)) else last_level P r h.
Proof.
  unfold last_level. rewrite rev_app_distr. cbn [rev app find].
  destruct (about r h t); reflexivity.
Qed.

Lemma roles_for_snoc (P : list (pystr * Z * pystr)) (t : pystr * Z * pystr)
      (h : pystr) :
  roles_for (P ++ [t]) h
  = if str_eqb (snd t) h
    then if existsb (str_eqb (fst (fst t))) (roles_for P h)
         then roles_for P h
         else roles_for P h ++ [fst (fst t)]
    else roles_for P h.
Proof.
  unfold roles_for. rewrite filter_app. cbn [filter].
  destruct (str_eqb (snd t) h).
  - rewrite map_app. cbn [List.map]. rewrite (first_seen_snoc str_eqb_eq).
    match goal with
    | |- (if ?a then _ else _) = (if ?b then _ else _) =>
        assert (E : a = b); [|rewrite E; reflexivity]
    end.
    apply eq_true_iff_eq.
    rewrite !(existsb_eqb_In str_eqb_eq), (In_first_seen str_eqb_eq). tauto.
  - rewrite app_nil_r. reflexivity.
Qed.

Lemma row_of_other (P : list (pystr * Z * pystr)) (row : dfrow)
      (r hero h : pystr) (l : Z) :
  h <> hero -> row_of P row h -> row_of (P ++ [(r, l, hero)]) row h.
Proof.
  intros Hn [H1 [H2 H3]].
  assert (E : str_eqb hero h = false) by (apply str_eqb_neq; congruence).
  split; [assumption|]. split.
  - rewrite roles_for_snoc. cbn [snd]. rewrite E. assumption.
  - intros r' Hr'. rewrite last_level_snoc. unfold about. cbn [fst snd].
    rewrite E, andb_false_r. apply H3; assumption.
Qed.

Lemma row_of_updated (P : list (pystr * Z * pystr)) (row : dfrow)
      (r hero : pystr) (l : Z) :
  r <> Hero -> row_of P row hero ->
  row_of (P ++ [(r, l, hero)]) (set str_eqb row r (VInt l)) hero.
Proof.
  intros Hn [H1 [H2 H3]]. split; [|split].
  - rewrite (get_set_other str_eqb_eq) by assumption. assumption.
  - rewrite keys_set, roles_for_snoc. cbn [fst snd]. rewrite str_eqb_refl.
    assert (E : contains str_eqb row r = existsb (str_eqb r) (roles_for P hero)).
    { apply eq_true_iff_eq.
      rewrite (contains_In str_eqb_eq), H2, (existsb_eqb_In str_eqb_eq).
      simpl. split; [intros [?|?]; [congruence|assumption] | auto]. }
    rewrite E, H2. destruct (existsb _ _); reflexivity.
  - intros r' Hr'. rewrite last_level_snoc. unfold about. cbn [fst snd].
    rewrite str_eqb_refl, andb_true_r. destruct (str_eqb r r') eqn:E.
    + apply str_eqb_eq in E; subst r'. rewrite (get_set_same str_eqb_eq). reflexivity.
    + apply str_eqb_neq in E. rewrite (get_set_other str_eqb_eq) by assumption.
      apply H3; assumption.
Qed.

Lemma no_triple_of (P : list (pystr * Z * pystr)) (hero : pystr) :
  ~ In hero (List.map snd P) ->
  filter (fun t => str_eqb (snd t) hero) P = []
  /\ forall r, last_level P r hero = None.
Proof.
  intros Hnot.
  assert (H : forall t, In t P -> str_eqb (snd t) hero = false).
  { intros t Ht. apply str_eqb_neq. intros E. apply Hnot. rewrite <- E.
    apply in_map; assumption. }
  split.
  - clear Hnot. induction P as [|t P IH]; [reflexivity|]. cbn [filter].
    rewrite (H t) by (left; reflexivity). apply IH. intros; apply H; right; assumption.
  - intros r. unfold last_level.
    destruct (find (about r hero) (rev P)) as [t|] eqn:E; [|reflexivity].
    apply find_some in E. destruct E as [E1 E2]. apply in_rev in E1.
    unfold about in E2. rewrite (H t E1), andb_false_r in E2. discriminate.
Qed.

Lemma row_of_new (P : list (pystr * Z * pystr)) (r hero : pystr) (l : Z) :
  r <> Hero -> ~ In hero (List.map snd P) ->
  row_of (P ++ [(r, l, hero)]) (set str_eqb [(Hero, VStr hero)] r (VInt l)) hero.
Proof.
  intros Hn Hnot. destruct (no_triple_of P hero Hnot) as [Hf Hl].
  cbn [set]. rewrite (proj2 (str_eqb_neq Hero r)) by congruence.
  split; [|split].
  - cbn [get]. rewrite str_eqb_refl. reflexivity.
  - unfold roles_for. rewrite filter_app, Hf. cbn [filter snd app].
    rewrite str_eqb_refl. reflexivity.
  - intros r' Hr'. rewrite last_level_snoc, Hl. unfold about. cbn [fst snd get].
    rewrite str_eqb_refl, andb_true_r.
    rewrite (proj2 (str_eqb_neq Hero r')) by congruence.
    destruct (str_eqb r r'); reflexivity.
Qed.

Lemma find_row_named (P : list (pystr * Z * pystr)) (r hero : pystr) (l : Z)
      (rows : list dfrow) (hs : list pystr) :
  r <> Hero ->
  Forall2 (row_of P) rows hs ->
  NoDup hs ->
  (In hero hs ->
   exists rows', find_row rows hero r l = Ok (rows', true)
                 /\ Forall2 (row_of (P ++ [(r, l, hero)])) rows' hs)
  /\ (~ In hero hs ->
      find_row rows hero r l = Ok (rows, false)
      /\ Forall2 (row_of (P ++ [(r, l, hero)])) rows hs).
Proof.
  intros Hn HF. induction HF as [|row h rows hs Hrow HF IH]; intros Hnd.
  - split; [intros []|]. intros _. split; [reflexivity | constructor].
  - inversion Hnd as [|? ? Hh Hnd']; subst. specialize (IH Hnd').
    destruct IH as [IH1 IH2]. cbn [find_row]. unfold getitem.
    rewrite (proj1 Hrow). cbn [bind value_eqb].
    destruct (str_eqb h hero) eqn:E.
    + apply str_eqb_eq in E; subst h. split; [|intros Hnot; exfalso; apply Hnot; left; reflexivity].
      intros _. eexists. split; [reflexivity|]. constructor.
      * apply row_of_updated; assumption.
      * destruct (IH2 Hh) as [_ HF']. exact HF'.
    + apply str_eqb_neq in E. split.
      * intros [Hin|Hin]; [contradiction|].
        destruct (IH1 Hin) as [rows' [H1 H2]]. rewrite H1. cbn [bind fst snd].
        eexists. split; [reflexivity|]. constructor; [|assumption].
        apply row_of_other; assumption.
      * intros Hnot. destruct IH2 as [H1 H2]; [intros Hin; apply Hnot; right; assumption|].
        rewrite H1. cbn [bind fst snd]. split; [reflexivity|].
        constructor; [|assumption]. apply row_of_other; assumption.
Qed.

(** Without a role named "Hero" the pivot leaves one row for each hero, in
    first-seen order, and each is as [row_of] says. *)
Lemma place_all_named (P : list (pystr * Z * pystr)) :
  (forall t, In t P -> fst (fst t) <> Hero) ->
  exists rows, for_each place P [] = Ok rows
               /\ Forall2 (row_of P) rows (heroes_in P).
Proof.
  induction P as [|[[r l] hero] P IH] using rev_ind; intros Hno.
  - exists []. split; [reflexivity | constructor].
  - destruct IH as [rows [Hrows HF]];
      [intros t Ht; apply Hno, in_or_app; left; assumption|].
    assert (Hn : r <> Hero)
      by (apply (Hno (r, l, hero)), in_or_app; right; left; reflexivity).
    rewrite for_each_app, Hrows. cbn [bind for_each].
    unfold place, place_hero. cbn [fst snd].
    destruct (find_row_named P r hero l rows (heroes_in P) Hn HF
                (NoDup_first_seen str_eqb_eq _)) as [H1 H2].
    unfold heroes_in. rewrite map_app. cbn [List.map snd].
    rewrite (first_seen_snoc str_eqb_eq). fold (heroes_in P).
    destruct (existsb (str_eqb hero) (List.map snd P)) eqn:E.
    + destruct H1 as [rows' [H1 H1']].
      { apply (In_first_seen str_eqb_eq), (existsb_eqb_In str_eqb_eq). assumption. }
      rewrite H1. cbn [bind fst snd]. exists rows'. split; [reflexivity | assumption].
    + apply (existsb_eqb_notin str_eqb_eq) in E.
      destruct H2 as [H2 H2'].
      { unfold heroes_in. rewrite (In_first_seen str_eqb_eq). assumption. }
      rewrite H2. cbn [bind fst snd]. eexists. split; [reflexivity|].
      apply Forall2_app; [assumption|]. constructor; [|constructor].
      apply row_of_new; assumption.
Qed.

(** *** The last level of a hero under a role *)

Lemma find_app {A : Type} (p : A -> bool) (l1 l2 : list A) :
  find p (l1 ++ l2)
  = match find p l1 with
    | Some x => Some x
    | None => find p l2
    end.
Proof.
  induction l1 as [|a l1 IH]; simpl; [reflexivity|]. destruct (p a); auto.
Qed.

Lemma last_level_app (P Q : list (pystr * Z * pystr)) (r h : pystr) :
  last_level (P ++ Q) r h
  = match last_level Q r h with
    | Some l => Some l
    | None => last_level P r h
    end.
Proof.
  unfold last_level. rewrite rev_app_distr, find_app.
  destruct (find (about r h) (rev Q)); reflexivity.
Qed.

Lemma last_level_none (P : list (pystr * Z * pystr)) (r h : pystr) :
  (forall t, In t P -> about r h t = false) -> last_level P r h = None.
Proof.
  intros H. unfold last_level.
  destruct (find (about r h) (rev P)) as [t|] eqn:E; [|reflexivity].
  apply find_some in E. destruct E as [E1 E2]. apply in_rev in E1.
  rewrite (H t E1) in E2. discriminate.
Qed.

Lemma last_level_block (r : pystr) (l : Z) (hs : list pystr) (h : pystr) :
  In h hs ->
  last_level (List.map (fun hero => (r, l, hero)) hs) r h = Some l.
Proof.
  intros Hin. unfold last_level.
  destruct (find (about r h) (rev (List.map (fun hero => (r, l, hero)) hs)))
    as [t|] eqn:E.
  - apply find_some in E. destruct E as [E _]. apply in_rev, in_map_iff in E.
    destruct E as [h' [<- _]]. reflexivity.
  - assert (H : about r h (r, l, h) = false).
    { apply (find_none _ _ E). apply -> in_rev. apply in_map_iff. exists h. auto. }
    unfold about in H. cbn [fst snd] in H. rewrite !str_eqb_refl in H.
    discriminate H.
Qed.

Lemma last_level_associations (ha : attributes) (r : pystr) (b : levels)
      (l : Z) (hs : list pystr) (hero : pystr) (pre post : list Z) :
  wf_attributes ha ->
  get str_eqb ha r = Some b ->
  keys b = pre ++ l :: post ->
  get Z.eqb b l = Some hs ->
  In hero hs ->
  (forall l' hs', In l' post -> get Z.eqb b l' = Some hs' -> ~ In hero hs') ->
  last_level (associations ha) r hero = Some l.
Proof.
  intros [Hnd Hwf] Hb Hk Hl Hin Hlater.
  assert (Hndb : NoDup (keys b))
    by (apply (Hwf r), (get_In str_eqb_eq); assumption).
  apply (get_In str_eqb_eq) in Hb. apply in_split in Hb.
  destruct Hb as [ha1 [ha2 ->]].
  assert (Hr2 : last_level (associations ha2) r hero = None).
  { apply last_level_none. intros [[r' l'] h'] Ht. apply In_associations in Ht.
    destruct Ht as [b' [hs' [H1 _]]]. unfold about. cbn [fst snd].
    rewrite (proj2 (str_eqb_neq r' r)); [reflexivity|]. intros ->.
    unfold keys in Hnd. rewrite map_app in Hnd. cbn [List.map fst] in Hnd.
    apply NoDup_remove_2 in Hnd. apply Hnd, in_or_app. right.
    change r with (fst (r, b')). apply in_map; assumption. }
  assert (Ea : associations (ha1 ++ (r, b) :: ha2)
               = associations ha1
                 ++ flat_map (fun lh => List.map (fun h => (r, fst lh, h)) (snd lh)) b
                 ++ associations ha2).
  { unfold associations. rewrite flat_map_app. reflexivity. }
  rewrite Ea, last_level_app, last_level_app, Hr2. clear Ea.
  unfold keys in Hk. apply map_eq_app in Hk. destruct Hk as [b1 [b2 [-> [Hpre Hk]]]].
  destruct b2 as [|[l0 hs0] b2]; [discriminate|]. cbn [List.map fst] in Hk.
  inversion Hk; subst l0. clear Hk.
  assert (hs0 = hs).
  { assert (E : get Z.eqb (b1 ++ (l, hs0) :: b2) l = Some hs0).
    { apply (In_get Z_eqb_eq); [assumption|]. apply in_or_app. right; left; reflexivity. }
    congruence. }
  subst hs0. rewrite flat_map_app. cbn [flat_map fst snd].
  rewrite last_level_app, last_level_app.
  rewrite (last_level_none (flat_map _ b2)).
  - rewrite last_level_block by assumption. reflexivity.
  - intros [[r' l'] h'] Ht. apply in_flat_map in Ht.
    destruct Ht as [[l2 hs2] [Hlh Hh2]]. cbn [fst snd] in Hh2.
    apply in_map_iff in Hh2. destruct Hh2 as [h2 [E Hh2]].
    injection E as -> -> ->.
    unfold about. cbn [fst snd].
    rewrite (proj2 (str_eqb_neq h' hero)); [apply andb_false_r|]. intros ->.
    apply (Hlater l' hs2); [| |assumption].
    + match goal with H : List.map fst b2 = post |- _ => rewrite <- H end.
      change l' with (fst (l', hs2)). apply in_map; assumption.
    + apply (In_get Z_eqb_eq); [assumption|].
      apply in_or_app. right; right; assumption.
Qed.

(** *** The frame when no role is named "Hero" *)

Lemma Forall2_In_l {A B : Type} (R : A -> B -> Prop) (l1 : list A) (l2 : list B) (x : A) :
  Forall2 R l1 l2 -> In x l1 -> exists y, In y l2 /\ R x y.
Proof.
  induction 1 as [|a b l1 l2 Hab HF IH]; intros Hin; [contradiction|].
  destruct Hin as [<-|Hin]; [exists b; simpl; auto|].
  destruct (IH Hin) as [y [? ?]]. exists y; simpl; auto.
Qed.

Lemma Forall2_In_r {A B : Type} (R : A -> B -> Prop) (l1 : list A) (l2 : list B) (y : B) :
  Forall2 R l1 l2 -> In y l2 -> exists x, In x l1 /\ R x y.
Proof.
  induction 1 as [|a b l1 l2 Hab HF IH]; intros Hin; [contradiction|].
  destruct Hin as [<-|Hin]; [exists a; simpl; auto|].
  destruct (IH Hin) as [x [? ?]]. exists x; simpl; auto.
Qed.

Lemma named_rows (page : soup) (frame : DataFrame) :
  df page = Ok frame ->
  ~ In Hero (roles page) ->
  exists ha rows,
    collect page = Ok ha
    /\ Forall2 (row_of (associations ha)) rows (heroes_in (associations ha))
    /\ frame = mkDataFrame (List.map (fill_row (roles page)) rows).
Proof.
  intros Hdf Hno. destruct (df_spec page frame Hdf) as [ha [rows [Hc [Hrows [_ ->]]]]].
  destruct (place_all_named (associations ha)) as [rows' [Hrows' HF]].
  - intros [[r l] h] Ht. cbn [fst]. intros ->. apply Hno.
    destruct (collect_spec page ha Hc) as [<- _].
    apply In_associations in Ht. destruct Ht as [b [hs [H1 _]]].
    change Hero with (fst (Hero, b)). apply in_map; assumption.
  - rewrite Hrows in Hrows'. inversion Hrows'; subst rows'.
    exists ha, rows. auto.
Qed.

Lemma get_filled_name (P : list (pystr * Z * pystr)) (roles : list pystr)
      (row : dfrow) (h : pystr) :
  row_of P row h -> get str_eqb (fill_row roles row) Hero = Some (VStr h).
Proof. intros [H _]. rewrite get_fill_row, H. reflexivity. Qed.

(** The row of a hero holds, under a role, the level that comes last in
    first-seen order among the levels whose list holds the hero. *)
Lemma hero_row_level (page : soup) (frame : DataFrame) (hero r : pystr) (l : Z)
      (hs : list pystr) (pre post : list Z) :
  df page = Ok frame ->
  ~ In Hero (roles page) ->
  levels_of page r = pre ++ l :: post ->
  listed page r l = Some hs ->
  In hero hs ->
  (forall l' hs', In l' post -> listed page r l' = Some hs' -> ~ In hero hs') ->
  (exists line, In line (values frame)
                /\ loc frame line Hero = Some (Some (VStr hero)))
  /\ (forall line, In line (values frame) ->
                   loc frame line Hero = Some (Some (VStr hero)) ->
                   loc frame line r = Some (Some (VInt l))).
Proof.
  intros Hdf Hno Hlev Hl Hin Hlater.
  destruct (named_rows page frame Hdf Hno) as [ha [rows [Hc [HF ->]]]].
  destruct (collect_spec page ha Hc) as [Hk [_ Hb]]. destruct (Hb r) as [Hkr Hgr].
  assert (Hb' : exists b, get str_eqb ha r = Some b).
  { rewrite <- Hgr in Hl. unfold bylevel_of in Hl.
    destruct (get str_eqb ha r) as [b|]; [eauto | discriminate]. }
  destruct Hb' as [b Hb'].
  assert (Eb : bylevel_of ha r = b) by (unfold bylevel_of; rewrite Hb'; reflexivity).
  rewrite Eb in Hkr, Hgr.
  assert (Hn : r <> Hero).
  { intros ->. apply Hno. rewrite <- Hk. eapply get_Some_In; [apply str_eqb_eq | eassumption]. }
  assert (Hlast : last_level (associations ha) r hero = Some l).
  { apply (last_level_associations ha r b l hs hero pre post).
    - apply (collect_wf page); assumption.
    - assumption.
    - rewrite Hkr. exact Hlev.
    - rewrite Hgr. assumption.
    - assumption.
    - intros l' hs' H1 H2. apply (Hlater l' hs' H1). rewrite <- Hgr. assumption. }
  assert (Hval : forall row, row_of (associations ha) row hero ->
                 get str_eqb (fill_row (roles page) row) r = Some (VInt l)).
  { intros row [_ [_ H3]]. rewrite get_fill_row, (H3 r Hn), Hlast. reflexivity. }
  split.
  - assert (Hh : In hero (heroes_in (associations ha))).
    { apply (In_first_seen str_eqb_eq).
      change hero with (snd (r, l, hero)). apply in_map.
      apply (associations_listed page ha r l hero Hc). eauto. }
    destruct (Forall2_In_r _ _ _ _ HF Hh) as [row [Hrow Hof]].
    eexists. split.
    + cbn [mkDataFrame values]. apply in_map. apply in_map. exact Hrow.
    + apply loc_mkDataFrame; [apply in_map; assumption|].
      eapply get_filled_name; eassumption.
  - intros line Hline Hname. cbn [mkDataFrame values] in Hline.
    apply in_map_iff in Hline. destruct Hline as [row' [<- Hrow']].
    pose proof Hrow' as Hin'.
    apply in_map_iff in Hrow'. destruct Hrow' as [row [<- Hrow]].
    destruct (Forall2_In_l _ _ _ _ HF Hrow) as [h' [_ Hof]].
    apply loc_mkDataFrame_inv in Hname.
    rewrite (get_filled_name _ _ _ _ Hof) in Hname. inversion Hname; subst h'.
    apply loc_mkDataFrame; [assumption | apply Hval; assumption].
Qed.

Lemma links_listed (page : soup) (frame : DataFrame) (r : pystr) (l : Z)
      (h : th) (hero : pystr) :
  df page = Ok frame ->
  last_header page r l = Some h ->
  exists hs, listed page r l = Some hs /\ (In hero hs <-> links h hero).
Proof.
  intros Hdf Hlast. destruct (df_spec page frame Hdf) as [ha [_ [Hc _]]].
  destruct (collect_spec page ha Hc) as [_ [Hwf _]]. rewrite Forall_forall in Hwf.
  destruct (last_header_Some page r l h Hlast) as [Hin _].
  specialize (Hwf h Hin). unfold listed. rewrite Hlast.
  destruct (heroes_of h) as [hs|] eqn:E; [|congruence]. exists hs.
  split; [reflexivity|]. unfold heroes_of in E. unfold links.
  destruct (find_next_td h) as [td|]; [|discriminate].
  rewrite (titles_In td hs hero E). split.
  - intros H. exists td. auto.
  - intros [td' [Htd H]]. inversion Htd; subst. assumption.
Qed.

(** The same, read on the header cells: [h] is the last cell of its role
    and level, it links the hero, and the last cell of no level first met
    later under the role does. *)
Lemma hero_row_level_of_header (page : soup) (frame : DataFrame)
      (hero r : pystr) (l : Z) (h : th) (pre post : list Z) :
  df page = Ok frame ->
  ~ In Hero (roles page) ->
  levels_of page r = pre ++ l :: post ->
  last_header page r l = Some h ->
  links h hero ->
  (forall l' h', In l' post -> last_header page r l' = Some h' -> ~ links h' hero) ->
  (exists line, In line (values frame)
                /\ loc frame line Hero = Some (Some (VStr hero)))
  /\ (forall line, In line (values frame) ->
                   loc frame line Hero = Some (Some (VStr hero)) ->
                   loc frame line r = Some (Some (VInt l))).
Proof.
  intros Hdf Hno Hlev Hlast Hlinks Hlater.
  destruct (links_listed page frame r l h hero Hdf Hlast) as [hs [Hl Hiff]].
  apply (hero_row_level page frame hero r l hs pre post); auto.
  - apply Hiff; assumption.
  - intros l' hs' Hin Hl' Hhero.
    destruct (listed_links page r l' hs' hero Hl' Hhero) as [h' [H1 H2]].
    exact (Hlater l' h' Hin H1 H2).
Qed.

(** C10, as the code has it. When no role is named "Hero" and a hero is
    linked from the last header cell of a role at level [l1] and from the
    last header cell of that role at level [l2], [l1] first met before
    [l2], and from the last cell of no level first met after [l2], the
    frame has a row for the hero and it holds [l2], not [l1], under the
    role. *)
Theorem later_level_overwrites :
  forall (page : soup) (frame : DataFrame) (hero r : pystr) (l1 l2 : Z)
         (h1 h2 : th) (before between after : list Z),
    df page = Ok frame ->
    ~ In Hero (roles page) ->
    levels_of page r = before ++ l1 :: between ++ l2 :: after ->
    last_header page r l1 = Some h1 -> links h1 hero ->
    last_header page r l2 = Some h2 -> links h2 hero ->
    (forall l' h', In l' after -> last_header page r l' = Some h' ->
                   ~ links h' hero) ->
    (exists line, In line (values frame)
                  /\ loc frame line Hero = Some (Some (VStr hero)))
    /\ (forall line, In line (values frame) ->
                     loc frame line Hero = Some (Some (VStr hero)) ->
                     loc frame line r = Some (Some (VInt l2))
                     /\ loc frame line r <> Some (Some (VInt l1))).
Proof.
  intros page frame hero r l1 l2 h1 h2 before between after
         Hdf Hno Hlev _ _ Hlast2 Hlinks2 Hlater.
  assert (Hne : l2 <> l1).
  { pose proof (NoDup_first_seen Z_eqb_eq
                  (List.map level (filter (fun h => str_eqb (role h) r) page))) as Hnd.
    fold (levels_of page r) in Hnd. rewrite Hlev in Hnd.
    apply NoDup_remove_2 in Hnd. intros ->. apply Hnd.
    apply in_or_app. right. apply in_or_app. right. left. reflexivity. }
  destruct (hero_row_level_of_header page frame hero r l2 h2
              (before ++ l1 :: between) after Hdf Hno) as [Hex Hall]; auto.
  - rewrite Hlev, <- app_assoc. reflexivity.
  - split; [assumption|]. intros line Hline Hname.
    rewrite (Hall line Hline Hname). split; [reflexivity | congruence].
Qed.

Lemma later_level_overwrites_witness :
  let h1 := header (str "Carry " ++ marker) [str "X"] in
  let h2 := header (str "Carry " ++ marker ++ marker) [str "X"] in
  let line := [Some (VStr (str "X")); Some (VInt 2)] in
  let frame := {| columns := [Hero; str "Carry"]; values := [line] |} in
  loc frame line (str "Carry") = Some (Some (VInt 2))
  /\ loc frame line (str "Carry") <> Some (Some (VInt 1)).
Proof.
  intros h1 h2 line frame.
  refine (proj2 (later_level_overwrites [h1; h2] frame (str "X") (str "Carry")
                   1%Z 2%Z h1 h2 [] [] [] _ _ _ _ _ _ _ _) line _ _).
  - vm_compute; reflexivity.
  - vm_compute. intros [H|[]]. discriminate H.
  - vm_compute; reflexivity.
  - vm_compute; reflexivity.
  - eexists. split; [reflexivity | left; reflexivity].
  - vm_compute; reflexivity.
  - eexists. split; [reflexivity | left; reflexivity].
  - intros l' h' [].
  - left; reflexivity.
  - vm_compute; reflexivity.
Defined.

(** C10, as it is stated, fails when the later level is met again: the
    cells "Carry ■" and "Carry ■■" both link X, a third cell "Carry ■■"
    links nobody and empties the list of level 2, and the row of X holds 1,
    the earlier level. *)
Lemma emptied_level_does_not_overwrite :
  let h1 := header (str "Carry " ++ marker) [str "X"] in
  let h2 := header (str "Carry " ++ marker ++ marker) [str "X"] in
  let page := [h1; h2; header (str "Carry " ++ marker ++ marker) []] in
  let line := [Some (VStr (str "X")); Some (VInt 1)] in
  let frame := {| columns := [Hero; str "Carry"]; values := [line] |} in
  role h1 = str "Carry" /\ role h2 = str "Carry"
  /\ level h1 = 1%Z /\ level h2 = 2%Z
  /\ links h1 (str "X") /\ links h2 (str "X")
  /\ df page = Ok frame
  /\ values frame = [line]
  /\ loc frame line Hero = Some (Some (VStr (str "X")))
  /\ loc frame line (str "Carry") = Some (Some (VInt 1)).
Proof.
  intros h1 h2 page line frame.
  repeat split; try (eexists; split; [reflexivity | left; reflexivity]).
Qed.

(** *** The page of the example of the specification *)

Lemma find_none_all {A : Type} (p : A -> bool) (l : list A) :
  (forall x, In x l -> p x = false) -> find p l = None.
Proof.
  intros H. destruct (find p l) as [x|] eqn:E; [|reflexivity].
  apply find_some in E. destruct E as [E1 E2]. rewrite (H x E1) in E2. discriminate.
Qed.

Lemma filter_none {A : Type} (p : A -> bool) (l : list A) :
  (forall x, In x l -> p x = false) -> filter p l = [].
Proof.
  induction l as [|a l IH]; intros H; [reflexivity|]. cbn [filter].
  rewrite (H a) by (left; reflexivity). apply IH. intros; apply H; right; assumption.
Qed.

Section TwoCells.
Variables before between after : soup.
Variables hA hB : th.
Variable r : pystr.

Hypothesis role_A : role hA = r.
Hypothesis role_B : role hB = r.
Hypothesis levels_differ : level hA <> level hB.
Hypothesis others : forall h, In h (before ++ between ++ after) -> role h <> r.

Lemma others_out (part : soup) (l : Z) :
  (forall h, In h part -> In h (before ++ between ++ after)) ->
  forall h, In h part -> str_eqb (role h) r && Z.eqb (level h) l = false.
Proof.
  intros Hpart h Hh. rewrite (proj2 (str_eqb_neq (role h) r)); [reflexivity|].
  apply others, Hpart, Hh.
Qed.

Lemma two_cells_levels :
  levels_of (before ++ hA :: between ++ hB :: after) r = [level hA; level hB].
Proof.
  assert (Hout : forall part,
             (forall h, In h part -> In h (before ++ between ++ after)) ->
             filter (fun h => str_eqb (role h) r) part = []).
  { intros part Hpart. apply filter_none. intros h Hh.
    apply str_eqb_neq, others, Hpart, Hh. }
  unfold levels_of. rewrite filter_app. cbn [filter]. rewrite filter_app. cbn [filter].
  rewrite role_A, role_B, str_eqb_refl.
  rewrite (Hout before), (Hout between), (Hout after);
    try (intros h Hh; rewrite !in_app_iff; tauto).
  cbn [app List.map first_seen filter].
  rewrite (proj2 (Z.eqb_neq _ _) levels_differ). reflexivity.
Qed.

Lemma two_cells_last_A :
  last_header (before ++ hA :: between ++ hB :: after) r (level hA) = Some hA.
Proof.
  unfold last_header.
  rewrite rev_app_distr. cbn [rev]. rewrite rev_app_distr. cbn [rev].
  rewrite <- !app_assoc. cbn [app].
  rewrite find_app, find_none_all.
  2:{ apply others_out. intros h Hh. apply in_rev in Hh. rewrite !in_app_iff; tauto. }
  cbn [find]. rewrite role_B, str_eqb_refl. cbn [andb].
  rewrite (proj2 (Z.eqb_neq (level hB) (level hA))) by congruence.
  rewrite find_app, find_none_all.
  2:{ apply others_out. intros h Hh. apply in_rev in Hh. rewrite !in_app_iff; tauto. }
  cbn [find]. rewrite role_A, str_eqb_refl, Z.eqb_refl. reflexivity.
Qed.

Lemma two_cells_last_B :
  last_header (before ++ hA :: between ++ hB :: after) r (level hB) = Some hB.
Proof.
  unfold last_header.
  rewrite rev_app_distr. cbn [rev]. rewrite rev_app_distr. cbn [rev].
  rewrite <- !app_assoc. cbn [app].
  rewrite find_app, find_none_all.
  2:{ apply others_out. intros h Hh. apply in_rev in Hh. rewrite !in_app_iff; tauto. }
  cbn [find]. rewrite role_B, str_eqb_refl, Z.eqb_refl. reflexivity.
Qed.
End TwoCells.

(** C5, as the code has it. The page has a header cell "Carry ■■■" whose
    data cell links "Hero A" and, later, a header cell "Carry ■" whose data
    cell links "Hero B" and not "Hero A"; these are the only header cells of
    role Carry, and no header cell has the role "Hero". Then the frame has
    a row for "Hero A" and one for "Hero B", the first holds 3 under Carry
    and the second 1. *)
Theorem carry_three_and_one :
  forall (before : soup) (hA : th) (between : soup) (hB : th) (after : soup)
         (frame : DataFrame),
    get_text hA = str "Carry " ++ marker ++ marker ++ marker ->
    links hA (str "Hero A") ->
    get_text hB = str "Carry " ++ marker ->
    links hB (str "Hero B") ->
    ~ links hB (str "Hero A") ->
    (forall h, In h (before ++ between ++ after) -> role h <> str "Carry") ->
    (forall h, In h (before ++ between ++ after) -> role h <> Hero) ->
    df (before ++ hA :: between ++ hB :: after) = Ok frame ->
    ((exists line, In line (values frame)
                   /\ loc frame line Hero = Some (Some (VStr (str "Hero A"))))
     /\ (forall line, In line (values frame) ->
                      loc frame line Hero = Some (Some (VStr (str "Hero A"))) ->
                      loc frame line (str "Carry") = Some (Some (VInt 3))))
    /\ ((exists line, In line (values frame)
                      /\ loc frame line Hero = Some (Some (VStr (str "Hero B"))))
        /\ (forall line, In line (values frame) ->
                         loc frame line Hero = Some (Some (VStr (str "Hero B"))) ->
                         loc frame line (str "Carry") = Some (Some (VInt 1)))).
Proof.
  intros before hA between hB after frame HtA HlA HtB HlB HnA Hothers Hno Hdf.
  assert (HrA : role hA = str "Carry") by (unfold role; rewrite HtA; reflexivity).
  assert (HrB : role hB = str "Carry") by (unfold role; rewrite HtB; reflexivity).
  assert (HvA : level hA = 3%Z) by (unfold level; rewrite HtA; reflexivity).
  assert (HvB : level hB = 1%Z) by (unfold level; rewrite HtB; reflexivity).
  assert (Hd : level hA <> level hB) by (rewrite HvA, HvB; discriminate).
  pose proof (two_cells_levels before between after hA hB (str "Carry")
                HrA HrB Hd Hothers) as Hlev.
  pose proof (two_cells_last_A before between after hA hB (str "Carry")
                HrA HrB Hd Hothers) as HlastA.
  pose proof (two_cells_last_B before between after hA hB (str "Carry")
                HrB Hothers) as HlastB.
  rewrite HvA, HvB in Hlev. rewrite HvA in HlastA. rewrite HvB in HlastB.
  assert (Hroles : ~ In Hero (roles (before ++ hA :: between ++ hB :: after))).
  { unfold roles. rewrite (In_first_seen str_eqb_eq), in_map_iff.
    intros [h [Hh Hin]]. rewrite in_app_iff in Hin. cbn [In] in Hin.
    rewrite in_app_iff in Hin. cbn [In] in Hin.
    destruct Hin as [Hin|[<-|[Hin|[<-|Hin]]]];
      try (apply (Hno h); [rewrite !in_app_iff; tauto | assumption]).
    - rewrite HrA in Hh. discriminate Hh.
    - rewrite HrB in Hh. discriminate Hh. }
  split.
  - apply (hero_row_level_of_header (before ++ hA :: between ++ hB :: after)
             frame (str "Hero A") (str "Carry") 3%Z hA [] [1%Z]); auto.
    intros l' h' [<-|[]] Hlast. rewrite HlastB in Hlast. inversion Hlast; subst h'.
    assumption.
  - apply (hero_row_level_of_header (before ++ hA :: between ++ hB :: after)
             frame (str "Hero B") (str "Carry") 1%Z hB [3%Z] []); auto.
Qed.

Lemma carry_three_and_one_witness :
  let hA := header (str "Carry " ++ marker ++ marker ++ marker) [str "Hero A"] in
  let hB := header (str "Carry " ++ marker) [str "Hero B"] in
  let lineA := [Some (VStr (str "Hero A")); Some (VInt 3)] in
  let lineB := [Some (VStr (str "Hero B")); Some (VInt 1)] in
  let frame := {| columns := [Hero; str "Carry"]; values := [lineA; lineB] |} in
  loc frame lineA (str "Carry") = Some (Some (VInt 3))
  /\ loc frame lineB (str "Carry") = Some (Some (VInt 1)).
Proof.
  intros hA hB lineA lineB frame.
  assert (H := carry_three_and_one [] hA [] hB [] frame).
  cbn [app] in H. destruct H as [[_ HA] [_ HB]].
  - reflexivity.
  - eexists. split; [reflexivity | left; reflexivity].
  - reflexivity.
  - eexists. split; [reflexivity | left; reflexivity].
  - intros [td [Htd Hlink]]. vm_compute in Htd. inversion Htd; subst td.
    vm_compute in Hlink. destruct Hlink as [Hlink|[]]. discriminate Hlink.
  - intros h [].
  - intros h [].
  - vm_compute; reflexivity.
  - split.
    + apply HA; [left; reflexivity | vm_compute; reflexivity].
    + apply HB; [right; left; reflexivity | vm_compute; reflexivity].
Defined.

(** C5, as it is stated, fails when the second data cell links "Hero A" as
    well: the page has the two header cells, the first links "Hero A" and
    the second "Hero B", and the row of "Hero A" holds 1 under Carry. *)
Lemma second_cell_overwrites_hero_A :
  let hA := header (str "Carry " ++ marker ++ marker ++ marker) [str "Hero A"] in
  let hB := header (str "Carry " ++ marker) [str "Hero B"; str "Hero A"] in
  let page := [hA; hB] in
  let line := [Some (VStr (str "Hero A")); Some (VInt 1)] in
  let frame :=
    {| columns := [Hero; str "Carry"];
       values := [line; [Some (VStr (str "Hero B")); Some (VInt 1)]] |} in
  links hA (str "Hero A")
  /\ links hB (str "Hero B")
  /\ df page = Ok frame
  /\ In line (values frame)
  /\ loc frame line Hero = Some (Some (VStr (str "Hero A")))
  /\ loc frame line (str "Carry") <> Some (Some (VInt 3)).
Proof.
  intros hA hB page line frame.
  repeat split; try (eexists; split; [reflexivity | left; reflexivity]).
  - left; reflexivity.
  - vm_compute; discriminate.
Qed.

(** *** The order of the columns *)

Lemma first_seen_run (r : pystr) (l1 l2 : list pystr) :
  (forall x, In x l1 -> x = r) ->
  ~ In r l2 ->
  first_seen str_eqb (l1 ++ l2)
  = match l1 with
    | [] => first_seen str_eqb l2
    | _ :: _ => r :: first_seen str_eqb l2
    end.
Proof.
  intros Hall Hnot.
  assert (Hf : filter (fun y => negb (str_eqb r y)) (first_seen str_eqb l2)
               = first_seen str_eqb l2).
  { apply filter_all. intros x Hx.
    apply (proj1 (In_first_seen str_eqb_eq x l2)) in Hx.
    rewrite (proj2 (str_eqb_neq r x)); [reflexivity|]. intros ->; contradiction. }
  induction l1 as [|a l1 IH]; [reflexivity|].
  assert (a = r) by (apply Hall; left; reflexivity). subst a.
  cbn [app first_seen]. rewrite IH by (intros; apply Hall; right; assumption).
  destruct l1; [rewrite Hf; reflexivity|].
  cbn [filter]. rewrite str_eqb_refl. cbn [negb]. rewrite Hf. reflexivity.
Qed.

Lemma block_has_hero (h r : pystr) (b : levels) :
  lists h (r, b)
  = match List.map (fun t : pystr * Z * pystr => fst (fst t))
            (filter (fun t => str_eqb (snd t) h)
               (flat_map (fun lh => List.map (fun x => (r, fst lh, x)) (snd lh)) b))
    with
    | [] => false
    | _ :: _ => true
    end.
Proof.
  unfold lists. cbn [snd]. induction b as [|[l hs] b IHb]; [reflexivity|].
  cbn [flat_map fst snd existsb]. rewrite filter_app, map_app.
  induction hs as [|x hs IHhs]; [exact IHb|].
  cbn [List.map filter snd existsb app].
  destruct (list_eq_dec N.eq_dec x h) as [->|Hn].
  - rewrite str_eqb_refl. reflexivity.
  - rewrite (proj2 (str_eqb_neq x h)), (proj2 (str_eqb_neq h x)) by congruence.
    exact IHhs.
Qed.

Lemma roles_for_associations (h : pystr) (part : attributes) :
  NoDup (keys part) ->
  roles_for (associations part) h = List.map fst (filter (lists h) part).
Proof.
  unfold roles_for. induction part as [|[r b] part IH]; intros Hnd; [reflexivity|].
  inversion Hnd as [|? ? Hr Hnd']; subst.
  assert (Ea : associations ((r, b) :: part)
               = flat_map (fun lh => List.map (fun x => (r, fst lh, x)) (snd lh)) b
                 ++ associations part) by reflexivity.
  rewrite Ea, filter_app, map_app. rewrite first_seen_run with (r := r).
  - rewrite (IH Hnd'). cbn [filter]. rewrite (block_has_hero h r b).
    destruct (List.map _ (filter _ (flat_map _ b))); reflexivity.
  - intros x Hx. apply in_map_iff in Hx. destruct Hx as [t [<- Ht]].
    apply filter_In in Ht. destruct Ht as [Ht _]. apply in_flat_map in Ht.
    destruct Ht as [lh [_ Ht]]. apply in_map_iff in Ht. destruct Ht as [x' [<- _]].
    reflexivity.
  - intros Hin. apply in_map_iff in Hin. destruct Hin as [[[r' l'] h'] [E Ht]].
    cbn [fst] in E. subst r'. apply filter_In in Ht. destruct Ht as [Ht _].
    apply In_associations in Ht. destruct Ht as [b' [hs' [H1 _]]].
    apply Hr. change r with (fst (r, b')). apply in_map; assumption.
Qed.

Lemma lists_listed_under (page : soup) (ha : attributes) (h r : pystr) (b : levels) :
  collect page = Ok ha ->
  In (r, b) ha ->
  lists h (r, b) = listed_under page h r.
Proof.
  intros Hc Hin. destruct (collect_wf page ha Hc) as [Hnd Hwf].
  apply eq_true_iff_eq. unfold lists, listed_under. cbn [snd].
  rewrite !existsb_exists. split.
  - intros [[l hs] [H1 H2]]. cbn [snd] in H2. apply (existsb_eqb_In str_eqb_eq) in H2.
    assert (Ha : In (r, l, h) (associations ha))
      by (apply In_associations; exists b, hs; auto).
    apply (associations_listed page ha r l h Hc) in Ha. destruct Ha as [hs' [H3 H4]].
    destruct (listed_links page r l hs' h H3 H4) as [x [H5 _]].
    apply last_header_Some in H5. destruct H5 as [H5 [_ H6]].
    exists x. split; [assumption|]. rewrite H6, H3.
    apply (existsb_eqb_In str_eqb_eq). assumption.
  - intros [x [_ H2]]. destruct (listed page r (level x)) as [ts|] eqn:E; [|discriminate].
    apply (existsb_eqb_In str_eqb_eq) in H2.
    assert (Ha : In (r, level x, h) (associations ha))
      by (apply (associations_listed page ha _ _ _ Hc); eauto).
    apply In_associations in Ha. destruct Ha as [b' [hs [H3 [H4 H5]]]].
    assert (b' = b).
    { apply (In_get str_eqb_eq ha r b' Hnd) in H3.
      apply (In_get str_eqb_eq ha r b Hnd) in Hin. congruence. }
    subst b'. exists (level x, hs). split; [assumption|]. cbn [snd].
    apply (existsb_eqb_In str_eqb_eq). assumption.
Qed.

Lemma map_fst_filter {A B : Type} (p : A -> bool) (l : list (A * B)) :
  List.map fst (filter (fun ab => p (fst ab)) l) = filter p (List.map fst l).
Proof.
  induction l as [|[a b] l IH]; [reflexivity|]. cbn [filter List.map fst].
  destruct (p a); cbn [List.map fst]; rewrite IH; reflexivity.
Qed.

Lemma roles_for_page (page : soup) (ha : attributes) (h : pystr) :
  collect page = Ok ha ->
  roles_for (associations ha) h = filter (listed_under page h) (roles page).
Proof.
  intros Hc. destruct (collect_wf page ha Hc) as [Hnd _].
  destruct (collect_spec page ha Hc) as [<- _].
  rewrite (roles_for_associations h ha Hnd). unfold keys.
  rewrite <- map_fst_filter. f_equal. apply filter_ext_in.
  intros [r b] Hin. cbn [fst]. apply (lists_listed_under page ha h r b Hc Hin).
Qed.

Lemma NoDup_split_by {A : Type} (p : A -> bool) (l : list A) :
  NoDup l -> NoDup (filter p l ++ filter (fun x => negb (p x)) l).
Proof.
  induction 1 as [|a l Ha Hnd IH]; [constructor|]. cbn [filter].
  destruct (p a); cbn [negb app].
  - constructor; [|assumption]. rewrite in_app_iff, !filter_In. tauto.
  - apply NoDup_Add with (a := a) (l := filter p l ++ filter (fun x => negb (p x)) l).
    + apply Add_app.
    + split; [assumption|]. rewrite in_app_iff, !filter_In. tauto.
Qed.

Lemma In_columns_of (page : soup) (h k : pystr) :
  In k (columns_of page h) <-> k = Hero \/ In k (roles page).
Proof.
  unfold columns_of. cbn [In]. rewrite in_app_iff, !filter_In.
  destruct (listed_under page h k); cbn [negb]; intuition (auto; congruence).
Qed.

Lemma NoDup_columns_of (page : soup) (h : pystr) :
  ~ In Hero (roles page) -> NoDup (columns_of page h).
Proof.
  intros Hno. unfold columns_of. constructor.
  - rewrite in_app_iff, !filter_In. tauto.
  - apply NoDup_split_by, (NoDup_first_seen str_eqb_eq).
Qed.

(** The keys of a filled row, in order. *)
Lemma keys_filled_row (page : soup) (ha : attributes) (row : dfrow) (h : pystr) :
  collect page = Ok ha ->
  ~ In Hero (roles page) ->
  row_of (associations ha) row h ->
  keys (fill_row (roles page) row) = columns_of page h.
Proof.
  intros Hc Hno [_ [Hk _]].
  rewrite keys_fill_row by apply (NoDup_first_seen str_eqb_eq).
  rewrite Hk, (roles_for_page page ha h Hc). unfold columns_of. cbn [app].
  do 2 f_equal. apply filter_ext_in. intros r Hr. f_equal.
  apply eq_true_iff_eq. rewrite (contains_In str_eqb_eq), Hk.
  rewrite (roles_for_page page ha h Hc). cbn [In]. rewrite filter_In.
  split; [|tauto]. intros [E|[_ E]]; [|assumption].
  exfalso. apply Hno. rewrite E. assumption.
Qed.

(** The columns of the frame are the keys of its first row. *)
Lemma columns_first_row (page : soup) (frame : DataFrame) :
  df page = Ok frame ->
  ~ In Hero (roles page) ->
  match values frame with
  | [] => columns frame = []
  | line :: _ =>
      exists hero,
        loc frame line Hero = Some (Some (VStr hero))
        /\ columns frame = columns_of page hero
  end.
Proof.
  intros Hdf Hno. destruct (named_rows page frame Hdf Hno) as [ha [rows [Hc [HF ->]]]].
  inversion HF as [|row1 h1 rest hs Hrow1 Hrest E1 E2].
  - reflexivity.
  - cbn [List.map mkDataFrame values]. exists h1.
    assert (Ecols : columns (mkDataFrame
                               (fill_row (roles page) row1
                                :: List.map (fill_row (roles page)) rest))
                    = columns_of page h1).
    { cbn [mkDataFrame columns flat_map]. rewrite fast_unique_first_seen.
      rewrite (keys_filled_row page ha row1 h1 Hc Hno Hrow1).
      rewrite (first_seen_app_incl str_eqb_eq).
      - apply (first_seen_NoDup str_eqb_eq), NoDup_columns_of, Hno.
      - intros k Hk. apply in_flat_map in Hk. destruct Hk as [row' [Hrow' Hk]].
        apply in_map_iff in Hrow'. destruct Hrow' as [row [<- Hrow]].
        destruct (Forall2_In_l _ _ _ _ Hrest Hrow) as [h' [_ Hof]].
        rewrite (keys_filled_row page ha row h' Hc Hno Hof) in Hk.
        apply In_columns_of. apply In_columns_of in Hk. exact Hk. }
    split; [|exact Ecols].
    apply (loc_mkDataFrame
             (fill_row (roles page) row1 :: List.map (fill_row (roles page)) rest)).
    + left; reflexivity.
    + eapply get_filled_name; eassumption.
Qed.

(** C7, as the code has it. The file begins with the line of the column
    labels. When no role is named "Hero", these are the keys of the first
    row of the frame: the hero name, then the roles under which the hero of
    that row is listed, in the order the roles are first met, then the
    other roles, in the order they are first met. With no row at all the
    line has no field. *)
Theorem header_row_follows_first_row :
  forall (writerow : list pystr -> list Byte.byte)
         (values_for_csv : DataFrame -> list (list pystr))
         (page : soup) (frame : DataFrame) (file : option (list Byte.byte)),
    df page = Ok frame ->
    ~ In Hero (roles page) ->
    exists header_row,
      fst (webscrape writerow values_for_csv page file)
      = Some (writerow header_row ++ flat_map writerow (values_for_csv frame))
      /\ match values frame with
         | [] => header_row = []
         | line :: _ =>
             exists hero,
               loc frame line Hero = Some (Some (VStr hero))
               /\ header_row
                  = Hero :: filter (listed_under page hero) (roles page)
                         ++ filter (fun r => negb (listed_under page hero r))
                                   (roles page)
         end.
Proof.
  intros writerow values_for_csv page frame file Hdf Hno.
  exists (columns frame). split.
  - unfold webscrape. rewrite Hdf. reflexivity.
  - apply (columns_first_row page frame Hdf Hno).
Qed.

Lemma header_row_follows_first_row_witness :
  let page := [header (str "A " ++ marker) [str "x"];
               header (str "B " ++ marker) [str "y"];
               header (str "C " ++ marker ++ marker) [str "x"]] in
  exists header_row,
    fst (webscrape plain_writerow plain_values page None)
    = Some (plain_writerow header_row
            ++ list_byte_of_string "x,1,2,0" ++ [Byte.x0a]
            ++ list_byte_of_string "y,0,0,1" ++ [Byte.x0a])
    /\ header_row = [Hero; str "A"; str "C"; str "B"].
Proof.
  intros page.
  destruct (header_row_follows_first_row plain_writerow plain_values page
              {| columns := [Hero; str "A"; str "C"; str "B"];
                 values := [[Some (VStr (str "x")); Some (VInt 1);
                             Some (VInt 2); Some (VInt 0)];
                            [Some (VStr (str "y")); Some (VInt 0);
                             Some (VInt 0); Some (VInt 1)]] |}
              None)
    as [header_row [Hfile Hrow]].
  - vm_compute; reflexivity.
  - vm_compute. intros [H|[H|[H|[]]]]; discriminate H.
  - exists header_row. cbn [values] in Hrow. destruct Hrow as [hero [Hname ->]].
    vm_compute in Hname. inversion Hname; subst hero. split.
    + rewrite Hfile. vm_compute. reflexivity.
    + vm_compute. reflexivity.
Defined.

(** C7, as it is stated, fails: the roles are first met in the order A, B,
    C, the first hero is listed under A and C, and the header line of the
    file is Hero,A,C,B. *)
Lemma header_row_not_in_first_seen_order :
  let page := [header (str "A " ++ marker) [str "x"];
               header (str "B " ++ marker) [str "y"];
               header (str "C " ++ marker ++ marker) [str "x"]] in
  roles page = [str "A"; str "B"; str "C"]
  /\ fst (webscrape plain_writerow plain_values page None)
     = Some (list_byte_of_string "Hero,A,C,B" ++ [Byte.x0a]
             ++ list_byte_of_string "x,1,2,0" ++ [Byte.x0a]
             ++ list_byte_of_string "y,0,0,1" ++ [Byte.x0a])
  /\ (exists frame, df page = Ok frame
                    /\ columns frame <> Hero :: roles page).
Proof.
  intros page. split; [reflexivity|]. split; [vm_compute; reflexivity|].
  eexists. split; [vm_compute; reflexivity|]. vm_compute. discriminate.
Qed.

(** ** More on the match importer *)

Section FoldSet.
Context {X K V : Type} {eqb : K -> K -> bool}.
Hypothesis eqb_eq : forall a b, eqb a b = true <-> a = b.
Variable key : X -> K.
Variable val : X -> V.

Lemma keys_fold_set (l : list X) :
  keys (fold_left (fun d x => set eqb d (key x) (val x)) l [])
  = first_seen eqb (List.map key l).
Proof.
  induction l as [|x l IH] using rev_ind; [reflexivity|].
  rewrite fold_left_app, map_app. cbn [fold_left List.map].
  rewrite keys_set, (first_seen_snoc eqb_eq), IH.
  destruct (existsb (eqb (key x)) (List.map key l)) eqn:E.
  - rewrite (proj2 (contains_In eqb_eq _ _)); [reflexivity|].
    rewrite IH. apply (In_first_seen eqb_eq), (existsb_eqb_In eqb_eq); assumption.
  - rewrite (proj2 (contains_false eqb_eq _ _)); [reflexivity|].
    rewrite IH, (In_first_seen eqb_eq). apply (existsb_eqb_notin eqb_eq); assumption.
Qed.

Lemma get_fold_set_other (l : list X) (k : K) :
  (forall x, In x l -> key x <> k) ->
  forall d, get eqb (fold_left (fun d x => set eqb d (key x) (val x)) l d) k
            = get eqb d k.
Proof.
  induction l as [|x l IH]; intros H d; [reflexivity|]. cbn [fold_left].
  rewrite IH by (intros; apply H; right; assumption).
  apply (get_set_other eqb_eq), H. left; reflexivity.
Qed.

Lemma get_fold_set_last (before after : list X) (x : X) (d : dict K V) :
  (forall y, In y after -> key y <> key x) ->
  get eqb (fold_left (fun d x => set eqb d (key x) (val x))
             (before ++ x :: after) d) (key x)
  = Some (val x).
Proof.
  intros H. rewrite fold_left_app. cbn [fold_left].
  rewrite get_fold_set_other by assumption. apply (get_set_same eqb_eq).
Qed.
End FoldSet.

(** What the first loop leaves: the rows of the fetched matches after the
    rows already there, and [matchdict] written match after match. *)
Lemma import_matches_eq (player_matches : Z -> list match_) (db : database) :
  import_matches player_matches db
  = ({| dotamatches := dotamatches db ++ fetched player_matches;
        dotamatchesinfo := dotamatchesinfo db;
        heroesinfo := heroesinfo db |},
     fold_left
       (fun d wm =>
          set Z.eqb d (match_id (snd wm))
              (negb (fst wm + Z.b2z (radiant_win (snd wm)) =? 1)%Z))
       (fetched player_matches) []).
Proof.
  assert (Hin : forall w ms db md,
             fold_left (import_match w) ms (db, md)
             = ({| dotamatches := dotamatches db ++ List.map (pair w) ms;
                   dotamatchesinfo := dotamatchesinfo db;
                   heroesinfo := heroesinfo db |},
                fold_left
                  (fun d wm =>
                     set Z.eqb d (match_id (snd wm))
                         (negb (fst wm + Z.b2z (radiant_win (snd wm)) =? 1)%Z))
                  (List.map (pair w) ms) md)).
  { intros w ms. induction ms as [|m ms IH]; intros db0 md.
    - cbn [fold_left List.map]. rewrite app_nil_r. destruct db0; reflexivity.
    - cbn [fold_left List.map]. unfold import_match at 2. cbn [fst snd].
      destruct (w + Z.b2z (radiant_win m) =? 1)%Z; rewrite IH;
        cbn [dotamatches dotamatchesinfo heroesinfo negb];
        rewrite <- app_assoc; reflexivity. }
  unfold import_matches, wintype, fetched. cbn [fold_left].
  rewrite Hin, Hin. cbn [dotamatches dotamatchesinfo heroesinfo].
  rewrite fold_left_app, <- app_assoc. reflexivity.
Qed.

Lemma teammates_loop_app (match_players : Z -> list player)
      (l1 l2 : list (Z * bool)) (st : database * list Z) :
  teammates_loop match_players (l1 ++ l2) st
  = match teammates_loop match_players l1 st with
    | (db, Ok heroidlist) => teammates_loop match_players l2 (db, heroidlist)
    | (db, Raise e) => (db, Raise e)
    end.
Proof.
  revert st. induction l1 as [|item l1 IH]; intros [db hl]; [reflexivity|].
  cbn [app teammates_loop].
  destruct (import_teammates match_players (db, hl) item) as [db' [hl'|e]];
    [apply IH | reflexivity].
Qed.

(** One turn of the second loop, entered with an empty [heroidlist]. *)
Lemma import_teammates_eq (match_players : Z -> list player) (db : database)
      (item : Z * bool) :
  import_teammates match_players (db, []) item
  = match teammates_row_of match_players item with
    | Some row =>
        ({| dotamatches := dotamatches db;
            dotamatchesinfo := dotamatchesinfo db ++ [row];
            heroesinfo := heroesinfo db |}, Ok [])
    | None => (db, Raise IndexError)
    end.
Proof.
  destruct item as [mID team]. unfold import_teammates, teammates_row_of.
  rewrite collect_heroes_same_side. cbn [app fst snd].
  destruct (List.map player_hero_id (same_side team (match_players mID)))
    as [|h0 [|h1 [|h2 [|h3 [|h4 more]]]]]; reflexivity.
Qed.

Lemma first_five_enough (mID : Z) (hs : list Z) :
  5 <= List.length hs -> first_five mID hs <> None.
Proof.
  destruct hs as [|h0 [|h1 [|h2 [|h3 [|h4 more]]]]]; simpl; try lia. discriminate.
Qed.

Lemma first_five_short (mID : Z) (hs : list Z) :
  List.length hs < 5 -> first_five mID hs = None.
Proof.
  destruct hs as [|h0 [|h1 [|h2 [|h3 [|h4 more]]]]]; simpl; try lia; reflexivity.
Qed.

(** The second loop over matches that all have five players on the side. *)
Lemma teammates_loop_all (match_players : Z -> list player)
      (items : list (Z * bool)) :
  Forall (fun item => teammates_row_of match_players item <> None) items ->
  forall db, exists db' rows,
    teammates_loop match_players items (db, []) = (db', Ok [])
    /\ List.map Some rows = List.map (teammates_row_of match_players) items
    /\ dotamatches db' = dotamatches db
    /\ dotamatchesinfo db' = dotamatchesinfo db ++ rows
    /\ heroesinfo db' = heroesinfo db.
Proof.
  induction 1 as [|item items Hitem Hitems IH]; intros db.
  - exists db, []. cbn. rewrite app_nil_r. auto.
  - cbn [teammates_loop]. rewrite import_teammates_eq.
    destruct (teammates_row_of match_players item) as [row|] eqn:E; [|contradiction].
    destruct (IH {| dotamatches := dotamatches db;
                    dotamatchesinfo := dotamatchesinfo db ++ [row];
                    heroesinfo := heroesinfo db |})
      as [db' [rows [H1 [H2 [H3 [H4 H5]]]]]].
    exists db', (row :: rows). rewrite H1. cbn [List.map]. rewrite H2, E.
    cbn [dotamatches dotamatchesinfo heroesinfo] in *.
    rewrite H4, <- app_assoc. auto.
Qed.

Lemma enough_players (match_players : Z -> list player) (items : list (Z * bool)) :
  Forall (fun item =>
            5 <= List.length (same_side (snd item) (match_players (fst item))))
         items ->
  Forall (fun item => teammates_row_of match_players item <> None) items.
Proof.
  intros H. eapply Forall_impl; [|exact H]. intros item Hitem.
  apply first_five_enough. rewrite length_map. exact Hitem.
Qed.

Lemma teammates_loop_keeps (match_players : Z -> list player)
      (items : list (Z * bool)) :
  forall st,
    dotamatches (fst (teammates_loop match_players items st))
    = dotamatches (fst st)
    /\ heroesinfo (fst (teammates_loop match_players items st))
       = heroesinfo (fst st).
Proof.
  induction items as [|[mID team] items IH]; intros [db heroidlist]; [auto|].
  cbn [teammates_loop].
  destruct (import_teammates match_players (db, heroidlist) (mID, team))
    as [db' [heroidlist'|e]] eqn:E;
    unfold import_teammates in E;
    destruct (h0 <- index _ 0 ;; _) as [row|e'] in E; inversion E; subst.
  - destruct (IH ({| dotamatches := dotamatches db;
                     dotamatchesinfo := dotamatchesinfo db ++ [row];
                     heroesinfo := heroesinfo db |}, [])) as [H1 H2].
    rewrite H1, H2. auto.
  - auto.
Qed.

(** X2: [matchdict] holds each distinct match identifier once, in the order
    the identifiers are first fetched: the second loop asks for the detail
    of a match once, however often the match was fetched. *)
Theorem matchdict_has_each_match_once :
  forall (player_matches : Z -> list match_) (db : database),
    keys (snd (import_matches player_matches db))
    = first_seen Z.eqb
        (List.map (fun wm => match_id (snd wm)) (fetched player_matches))
    /\ NoDup (keys (snd (import_matches player_matches db))).
Proof.
  intros player_matches db. rewrite import_matches_eq. cbn [snd].
  rewrite (keys_fold_set Z_eqb_eq (fun wm => match_id (snd wm))).
  split; [reflexivity | apply (NoDup_first_seen Z_eqb_eq)].
Qed.

(** X3: the side [matchdict] ends with for a match is the one derived from the
    last fetch of its identifier. *)
Theorem matchdict_keeps_last_side :
  forall (player_matches : Z -> list match_) (db : database)
         (before after : list (Z * match_)) (winnumber : Z) (m : match_),
    fetched player_matches = before ++ (winnumber, m) :: after ->
    (forall wm, In wm after -> match_id (snd wm) <> match_id m) ->
    get Z.eqb (snd (import_matches player_matches db)) (match_id m)
    = Some (negb (winnumber + Z.b2z (radiant_win m) =? 1)%Z).
Proof.
  intros player_matches db before after w m Hf Hafter.
  rewrite import_matches_eq, Hf. cbn [snd].
  apply (get_fold_set_last Z_eqb_eq (fun wm => match_id (snd wm))
           (fun wm => negb (fst wm + Z.b2z (radiant_win (snd wm)) =? 1)%Z)
           before after (w, m) []).
  exact Hafter.
Qed.

Lemma matchdict_keeps_last_side_witness :
  let player_matches (w : Z) :=
    if (w =? 1)%Z then [a_match 7 true; a_match 8 false] else [a_match 9 true] in
  get Z.eqb (snd (import_matches player_matches empty_store)) 8%Z = Some false.
Proof.
  intros player_matches.
  apply (matchdict_keeps_last_side player_matches empty_store
           [(1%Z, a_match 7 true)] [(0%Z, a_match 9 true)] 1%Z (a_match 8 false)).
  - reflexivity.
  - intros wm [<-|[]]. cbn. discriminate.
Defined.

(** The second loop up to a match that lacks a fifth player. *)
Lemma teammates_loop_short (match_players : Z -> list player)
      (before after : list (Z * bool)) (item : Z * bool) :
  Forall (fun item => teammates_row_of match_players item <> None) before ->
  teammates_row_of match_players item = None ->
  forall db, exists db' rows,
    teammates_loop match_players (before ++ item :: after) (db, [])
    = (db', Raise IndexError)
    /\ List.map Some rows = List.map (teammates_row_of match_players) before
    /\ dotamatchesinfo db' = dotamatchesinfo db ++ rows
    /\ heroesinfo db' = heroesinfo db.
Proof.
  intros Hbefore Hitem db. rewrite teammates_loop_app.
  destruct (teammates_loop_all match_players before Hbefore db)
    as [db' [rows [H1 [H2 [_ [H4 H5]]]]]].
  rewrite H1. cbn [teammates_loop]. rewrite import_teammates_eq, Hitem.
  exists db', rows. auto.
Qed.

(** X5: a match whose detail has fewer than five players on the derived side
    ends the run with [IndexError]: the rows of the matches before it stay
    in the teammates table, the match itself and those after it get no
    row, and the hero catalog is not stored. *)
Theorem importer_dies_on_short_team :
  forall (player_matches : Z -> list match_) (match_players : Z -> list player)
         (heroes : list hero) (db : database)
         (before after : list (Z * bool)) (mID : Z) (team : bool),
    snd (import_matches player_matches db) = before ++ (mID, team) :: after ->
    Forall (fun item =>
              5 <= List.length (same_side (snd item) (match_players (fst item))))
           before ->
    List.length (same_side team (match_players mID)) < 5 ->
    exists rows,
      snd (main player_matches match_players heroes db) = Raise IndexError
      /\ List.map Some rows = List.map (teammates_row_of match_players) before
      /\ dotamatchesinfo (fst (main player_matches match_players heroes db))
         = dotamatchesinfo db ++ rows
      /\ heroesinfo (fst (main player_matches match_players heroes db))
         = heroesinfo db.
Proof.
  intros player_matches match_players heroes db before after mID team
         Hdict Hbefore Hshort.
  unfold main. rewrite import_matches_eq in *. cbn [snd] in Hdict. rewrite Hdict.
  match goal with
  | |- context [teammates_loop _ _ (?db1, [])] =>
      destruct (teammates_loop_short match_players before after (mID, team)
                  (enough_players match_players before Hbefore)
                  (first_five_short mID _
                     (eq_ind_r (fun n => n < 5) Hshort (length_map _ _)))
                  db1)
        as [db' [rows [H1 [H2 [H4 H5]]]]]
  end.
  exists rows. rewrite H1. cbn [fst snd]. rewrite H4, H5. auto.
Qed.

Lemma importer_dies_on_short_team_witness :
  let p (r : bool) (h : Z) := {| isRadiant := r; player_hero_id := h |} in
  let player_matches (w : Z) := if (w =? 1)%Z then [a_match 42 true] else [] in
  let match_players (mID : Z) := [p true 1; p false 2; p true 3]%Z in
  snd (main player_matches match_players [] empty_store) = Raise IndexError
  /\ dotamatchesinfo (fst (main player_matches match_players [] empty_store)) = [].
Proof.
  intros p player_matches match_players.
  destruct (importer_dies_on_short_team player_matches match_players []
              empty_store [] [] 42%Z true) as [rows [H1 [H2 [H3 _]]]].
  - reflexivity.
  - constructor.
  - cbn. lia.
  - destruct rows; [|discriminate H2]. split; [exact H1 | exact H3].
Defined.

(** X6: a match the run reaches whose detail has more than five players on the
    derived side gets a row with the first five of them, in the order of
    the player list; the others are left out without an error. *)
Theorem extra_players_are_left_out :
  forall (player_matches : Z -> list match_) (match_players : Z -> list player)
         (heroes : list hero) (db : database)
         (before after : list (Z * bool)) (mID : Z) (team : bool)
         (p0 p1 p2 p3 p4 p5 : player) (more : list player),
    snd (import_matches player_matches db) = before ++ (mID, team) :: after ->
    Forall (fun item =>
              5 <= List.length (same_side (snd item) (match_players (fst item))))
           before ->
    same_side team (match_players mID) = p0 :: p1 :: p2 :: p3 :: p4 :: p5 :: more ->
    nth_error
      (dotamatchesinfo (fst (main player_matches match_players heroes db)))
      (List.length (dotamatchesinfo db) + List.length before)
    = Some (mID, player_hero_id p0, player_hero_id p1, player_hero_id p2,
            player_hero_id p3, player_hero_id p4).
Proof.
  intros player_matches match_players heroes db before after mID team
         p0 p1 p2 p3 p4 p5 more Hdict Hbefore Hsix.
  assert (Hloop : forall db1,
             nth_error
               (dotamatchesinfo
                  (fst (teammates_loop match_players
                          (before ++ (mID, team) :: after) (db1, []))))
               (List.length (dotamatchesinfo db1) + List.length before)
             = Some (mID, player_hero_id p0, player_hero_id p1, player_hero_id p2,
                     player_hero_id p3, player_hero_id p4)).
  { intros db1. rewrite teammates_loop_app.
    destruct (teammates_loop_all match_players before
                (enough_players match_players before Hbefore) db1)
      as [db' [rows [H1 [H2 [_ [H4 _]]]]]].
    rewrite H1. cbn [teammates_loop]. rewrite import_teammates_eq.
    unfold teammates_row_of. cbn [fst snd]. rewrite Hsix. cbn [List.map first_five].
    match goal with
    | |- context [teammates_loop _ after ?st] =>
        destruct (teammates_loop_appends match_players after st) as [rest Hrest]
    end.
    rewrite Hrest. cbn [fst dotamatchesinfo]. rewrite H4.
    assert (Hlen : List.length rows = List.length before).
    { rewrite <- (length_map Some rows), H2. apply length_map. }
    rewrite <- Hlen, <- length_app.
    rewrite nth_error_app1 by (rewrite !length_app; cbn [List.length]; lia).
    rewrite nth_error_app2 by lia. rewrite Nat.sub_diag. reflexivity. }
  pose proof (import_matches_keeps_teammates player_matches db) as Hkeep.
  unfold main. destruct (import_matches player_matches db) as [db1 matchdict].
  cbn [fst snd] in Hdict, Hkeep. subst matchdict. rewrite <- Hkeep.
  specialize (Hloop db1).
  destruct (teammates_loop match_players (before ++ (mID, team) :: after) (db1, []))
    as [db2 [heroidlist|e]]; cbn [fst] in *.
  - rewrite import_heroes_keeps_teammates. exact Hloop.
  - exact Hloop.
Qed.

Lemma extra_players_are_left_out_witness :
  let p (r : bool) (h : Z) := {| isRadiant := r; player_hero_id := h |} in
  let player_matches (w : Z) := if (w =? 1)%Z then [a_match 42 true] else [] in
  let match_players (mID : Z) :=
    [p true 1; p true 2; p true 3; p true 4; p true 5; p true 6; p false 7]%Z in
  nth_error
    (dotamatchesinfo (fst (main player_matches match_players [] empty_store))) 0
  = Some (42, 1, 2, 3, 4, 5)%Z.
Proof.
  intros p player_matches match_players.
  apply (extra_players_are_left_out player_matches match_players []
           empty_store [] [] 42%Z true
           (p true 1%Z) (p true 2%Z) (p true 3%Z) (p true 4%Z) (p true 5%Z)
           (p true 6%Z) []).
  - reflexivity.
  - constructor.
  - reflexivity.
Defined.

(** *** The catalog loop *)

Lemma read_hero_complete (entry : hero) :
  (forall f, In f hero_fields -> In f (keys entry)) ->
  exists row, read_hero entry = Ok row /\ copied entry row.
Proof.
  intros H. unfold read_hero, getitem, copied.
  assert (Hget : forall f, In f hero_fields -> get str_eqb entry f <> None).
  { intros f Hf E. apply (get_None_notin str_eqb_eq) in E. apply E, H, Hf. }
  destruct (get str_eqb entry (str "id")) as [i|] eqn:Ei;
    [|exfalso; apply (Hget (str "id")); [cbn; tauto | assumption]].
  destruct (get str_eqb entry (str "name")) as [n|] eqn:En;
    [|exfalso; apply (Hget (str "name")); [cbn; tauto | assumption]].
  destruct (get str_eqb entry (str "localized_name")) as [l|] eqn:El;
    [|exfalso; apply (Hget (str "localized_name")); [cbn; tauto | assumption]].
  destruct (get str_eqb entry (str "primary_attr")) as [p|] eqn:Ep;
    [|exfalso; apply (Hget (str "primary_attr")); [cbn; tauto | assumption]].
  destruct (get str_eqb entry (str "attack_type")) as [a|] eqn:Ea;
    [|exfalso; apply (Hget (str "attack_type")); [cbn; tauto | assumption]].
  cbn [bind]. eexists. split; [reflexivity|]. cbn. auto.
Qed.

Lemma read_hero_missing (entry : hero) (f : pystr) :
  In f hero_fields -> ~ In f (keys entry) -> read_hero entry = Raise KeyError.
Proof.
  intros Hf Hnot. apply (get_None_notin str_eqb_eq) in Hnot.
  unfold read_hero, getitem.
  cbn [hero_fields In] in Hf.
  destruct Hf as [<-|[<-|[<-|[<-|[<-|[]]]]]]; rewrite ?Hnot;
    repeat match goal with
           | |- context [get str_eqb entry ?k] =>
               destruct (get str_eqb entry k); cbn [bind]; try reflexivity;
               try discriminate
           end.
Qed.

Lemma heroes_loop_keeps (heroes : list hero) :
  forall db,
    dotamatches (fst (heroes_loop heroes db)) = dotamatches db
    /\ dotamatchesinfo (fst (heroes_loop heroes db)) = dotamatchesinfo db.
Proof.
  induction heroes as [|h heroes IH]; intros db; [auto|].
  cbn [heroes_loop]. destruct (read_hero h); [|auto].
  destruct (IH {| dotamatches := dotamatches db;
                  dotamatchesinfo := dotamatchesinfo db;
                  heroesinfo := heroesinfo db ++ [a] |}) as [H1 H2].
  rewrite H1, H2. auto.
Qed.

Lemma heroes_loop_all (heroes : list hero) :
  Forall (fun entry => forall f, In f hero_fields -> In f (keys entry)) heroes ->
  forall db, exists db' rows,
    heroes_loop heroes db = (db', Ok tt)
    /\ Forall2 copied heroes rows
    /\ heroesinfo db' = heroesinfo db ++ rows.
Proof.
  induction 1 as [|h heroes Hh Hheroes IH]; intros db.
  - exists db, []. cbn. rewrite app_nil_r. auto.
  - cbn [heroes_loop]. destruct (read_hero_complete h Hh) as [row [Hrow Hcopy]].
    rewrite Hrow.
    destruct (IH {| dotamatches := dotamatches db;
                    dotamatchesinfo := dotamatchesinfo db;
                    heroesinfo := heroesinfo db ++ [row] |})
      as [db' [rows [H1 [H2 H3]]]].
    exists db', (row :: rows). rewrite H1, H3. cbn [heroesinfo].
    rewrite <- app_assoc. auto.
Qed.

Lemma heroes_loop_app (l1 l2 : list hero) (db : database) :
  heroes_loop (l1 ++ l2) db
  = match heroes_loop l1 db with
    | (db', Ok _) => heroes_loop l2 db'
    | (db', Raise e) => (db', Raise e)
    end.
Proof.
  revert db. induction l1 as [|h l1 IH]; intros db; [reflexivity|].
  cbn [app heroes_loop]. destruct (read_hero h); [apply IH | reflexivity].
Qed.

(** X1: when the first loop has completed, the match table holds, after the
    rows it had, one row for each fetched match, the wins then the losses,
    each with the outcome of its query. Neither the second loop nor the
    catalog loop touches the match table: the rows are the same when the
    run ends, also when it ends with an exception in one of these loops. *)
Theorem match_rows_are_stored :
  forall (player_matches : Z -> list match_) (match_players : Z -> list player)
         (heroes : list hero) (db : database),
    dotamatches (fst (import_matches player_matches db))
    = dotamatches db ++ fetched player_matches
    /\ dotamatches (fst (main player_matches match_players heroes db))
       = dotamatches (fst (import_matches player_matches db)).
Proof.
  intros player_matches match_players heroes db. unfold main.
  rewrite import_matches_eq. cbn [fst dotamatches]. split; [reflexivity|].
  match goal with
  | |- context [teammates_loop _ ?items ?st] =>
      destruct (teammates_loop_keeps match_players items st) as [H _];
      destruct (teammates_loop match_players items st) as [db' [hl|e]]
  end; cbn [fst dotamatches] in *.
  - unfold import_heroes. rewrite (proj1 (heroes_loop_keeps heroes db')). exact H.
  - exact H.
Qed.



(** X18: the first catalog entry that lacks one of the five fields line 81
    reads ends the run with [KeyError]: the rows of the entries before it
    stay in the hero table, the entry itself and those after it get no
    row, and the other two tables are as the second loop left them. *)
Theorem entry_without_field_ends_the_run :
  forall (heroes good rest : list hero) (bad : hero) (f : pystr) (db : database),
    heroes = good ++ bad :: rest ->
    Forall (fun entry => forall f, In f hero_fields -> In f (keys entry)) good ->
    In f hero_fields ->
    ~ In f (keys bad) ->
    exists db' hrows,
      import_heroes heroes db = (db', Raise KeyError)
      /\ Forall2 copied good hrows
      /\ heroesinfo db' = heroesinfo db ++ hrows
      /\ dotamatches db' = dotamatches db
      /\ dotamatchesinfo db' = dotamatchesinfo db.
Proof.
  intros heroes good rest bad f db -> Hgood Hf Hnot.
  destruct (heroes_loop_all good Hgood db) as [db' [hrows [G1 [G2 G3]]]].
  destruct (heroes_loop_keeps good db) as [K1 K2]. rewrite G1 in K1, K2.
  cbn [fst] in K1, K2.
  exists db', hrows. unfold import_heroes.
  rewrite heroes_loop_app, G1. cbn [heroes_loop].
  rewrite (read_hero_missing bad f Hf Hnot). auto.
Qed.

Lemma entry_without_field_ends_the_run_witness :
  let good := [(str "id", JInt 1); (str "name", JStr (str "a"));
               (str "localized_name", JStr (str "A"));
               (str "primary_attr", JStr (str "agi"));
               (str "attack_type", JStr (str "Melee"))] in
  let bad := [(str "id", JInt 2); (str "name", JStr (str "b"))] in
  exists db',
    import_heroes [good; bad; good] empty_store = (db', Raise KeyError)
    /\ List.length (heroesinfo db') = 1.
Proof.
  intros good bad.
  destruct (entry_without_field_ends_the_run [good; bad; good] [good] [good] bad
              (str "attack_type") empty_store)
    as [db' [hrows [H1 [H2 [H3 _]]]]].
  - reflexivity.
  - constructor; [|constructor]. intros f Hf. cbn in Hf. cbn.
    repeat (destruct Hf as [<-|Hf]; [tauto|]). contradiction.
  - cbn. tauto.
  - cbn. intros [H|[H|[]]]; discriminate H.
  - exists db'. split; [exact H1|]. rewrite H3.
    inversion H2 as [|? ? ? ? _ Hnil]; subst. inversion Hnil; subst. reflexivity.
Defined.

(** ** More on the role scraper *)

Lemma titles_Some_iff (td : list a_tag) :
  titles td <> None <-> Forall (fun a => title a <> None) td.
Proof.
  induction td as [|[t] td IH]; cbn [titles title].
  - split; [constructor | discriminate].
  - destruct t as [t|].
    + destruct (titles td) as [ts|].
      * split; [|discriminate]. intros _. constructor; [discriminate|].
        apply IH. discriminate.
      * split; [congruence|]. intros H. inversion H; subst.
        exfalso. apply (proj2 IH); [assumption | reflexivity].
    + split; [congruence|]. intros H. inversion H; subst. cbn in *. congruence.
Qed.

Lemma heroes_of_Some_iff (h : th) :
  heroes_of h <> None
  <-> exists td, find_next_td h = Some td
                 /\ Forall (fun a => title a <> None) td.
Proof.
  unfold heroes_of. destruct (find_next_td h) as [td|].
  - rewrite titles_Some_iff. split.
    + intros H. exists td. auto.
    + intros [td' [E H]]. inversion E; subst. assumption.
  - split; [congruence|]. intros [td [E _]]. discriminate E.
Qed.

Lemma collect_good (page : soup) :
  Forall (fun h => heroes_of h <> None) page -> exists ha, collect page = Ok ha.
Proof.
  induction page as [|h page IH] using rev_ind; intros H.
  - exists []. reflexivity.
  - apply Forall_app in H. destruct H as [Hpage Hh]. inversion Hh; subst.
    destruct (IH Hpage) as [ha Hc]. rewrite collect_snoc, Hc. cbn [bind].
    rewrite add_header_eq. unfold heroes_of in *.
    destruct (find_next_td h) as [td|]; [|congruence].
    destruct (titles td) as [ts|]; [eauto | congruence].
Qed.

Lemma df_of_collect (page : soup) (ha : attributes) :
  collect page = Ok ha -> exists frame, df page = Ok frame.
Proof.
  intros Hc. unfold df, records. rewrite Hc. cbn [bind].
  rewrite (pivot_eq ha (collect_wf page ha Hc)).
  destruct (place_all_ok (associations ha)) as [rows [Hrows _]].
  rewrite Hrows. cbn [bind]. eauto.
Qed.

(** X7: the frame is built exactly when every header cell has a following data
    cell and every link in these data cells has a title; a data cell
    without links is accepted. The lookups of the pivot and of the zero
    fill never fail. *)
Theorem frame_is_built_iff_page_is_well_formed :
  forall page : soup,
    (exists frame, df page = Ok frame)
    <-> Forall (fun h => exists td, find_next_td h = Some td
                                    /\ Forall (fun a => title a <> None) td)
               page.
Proof.
  intros page. split.
  - intros [frame Hdf]. destruct (df_spec page frame Hdf) as [ha [_ [Hc _]]].
    destruct (collect_spec page ha Hc) as [_ [Hwf _]].
    eapply Forall_impl; [|exact Hwf]. intros h. apply heroes_of_Some_iff.
  - intros H. destruct (collect_good page) as [ha Hc].
    + eapply Forall_impl; [|exact H]. intros h. apply heroes_of_Some_iff.
    + exact (df_of_collect page ha Hc).
Qed.

Lemma collect_bad (good rest : soup) (bad : th) :
  Forall (fun h => heroes_of h <> None) good ->
  collect (good ++ bad :: rest)
  = match find_next_td bad with
    | None => Raise AttributeError
    | Some td =>
        match titles td with
        | None => Raise KeyError
        | Some ts =>
            bind (collect good)
                 (fun ha => for_each add_header rest (with_header ha bad ts))
        end
    end.
Proof.
  intros Hgood. destruct (collect_good good Hgood) as [ha Hc].
  unfold collect in *. rewrite for_each_app, Hc. cbn [bind for_each].
  rewrite add_header_eq. destruct (find_next_td bad) as [td|]; [|reflexivity].
  destruct (titles td); reflexivity.
Qed.

(** X8: the first header cell that is not as the script expects ends the run:
    with [AttributeError] when no data cell follows it, with [KeyError]
    when a link of its data cell has no title. The file is then left as it
    was; nothing is written for the header cells read before. *)
Theorem first_bad_header_ends_the_run :
  forall (writerow : list pystr -> list Byte.byte)
         (values_for_csv : DataFrame -> list (list pystr))
         (good rest : soup) (bad : th) (file : option (list Byte.byte)),
    Forall (fun h => exists td, find_next_td h = Some td
                                /\ Forall (fun a => title a <> None) td)
           good ->
    (find_next_td bad = None ->
     webscrape writerow values_for_csv (good ++ bad :: rest) file
     = (file, Raise AttributeError))
    /\ (forall td, find_next_td bad = Some td ->
                   ~ Forall (fun a => title a <> None) td ->
                   webscrape writerow values_for_csv (good ++ bad :: rest) file
                   = (file, Raise KeyError)).
Proof.
  intros writerow values_for_csv good rest bad file Hgood.
  assert (Hgood' : Forall (fun h => heroes_of h <> None) good)
    by (eapply Forall_impl; [|exact Hgood]; intros h; apply heroes_of_Some_iff).
  pose proof (collect_bad good rest bad Hgood') as Hc.
  unfold webscrape, df, records. split.
  - intros Htd. rewrite Htd in Hc. rewrite Hc. reflexivity.
  - intros td Htd Hbad. rewrite Htd in Hc.
    destruct (titles td) as [ts|] eqn:E.
    + exfalso. apply Hbad, titles_Some_iff. congruence.
    + rewrite Hc. reflexivity.
Qed.

Lemma first_bad_header_ends_the_run_witness :
  let good := [header (str "Carry " ++ marker) [str "A"]] in
  let bad := {| get_text := str "Support " ++ marker; find_next_td := None |} in
  webscrape plain_writerow plain_values
            (good ++ bad :: [header (str "Nuker " ++ marker) [str "B"]]) None
  = (None, Raise AttributeError).
Proof.
  intros good bad.
  destruct (first_bad_header_ends_the_run plain_writerow plain_values
              good [header (str "Nuker " ++ marker) [str "B"]] bad None)
    as [H _].
  - constructor; [|constructor]. eexists. split; [reflexivity|].
    constructor; [discriminate | constructor].
  - apply H. reflexivity.
Defined.

(** X9: handling a header cell changes one list of the accumulator only, the
    list of its own role and level, which becomes the list of the heroes
    its data cell links, in the order of the links; the lists of the other
    roles and levels stay as they were. *)
Theorem header_touches_only_its_list :
  forall (ha ha' : attributes) (h : th),
    add_header ha h = Ok ha' ->
    get Z.eqb (bylevel_of ha' (role h)) (level h) = heroes_of h
    /\ forall r l, (r, l) <> (role h, level h) ->
                   get Z.eqb (bylevel_of ha' r) l = get Z.eqb (bylevel_of ha r) l.
Proof.
  intros ha ha' h Hadd. apply add_header_Ok in Hadd.
  destruct Hadd as [ts [Hts ->]]. split.
  - rewrite bylevel_of_with_header, str_eqb_refl, (get_set_same Z_eqb_eq).
    symmetry; exact Hts.
  - intros r l Hne. rewrite bylevel_of_with_header.
    destruct (str_eqb (role h) r) eqn:E; [|reflexivity].
    apply str_eqb_eq in E. subst r.
    apply (get_set_other Z_eqb_eq). intros El. apply Hne. congruence.
Qed.

Lemma header_touches_only_its_list_witness :
  let h := header (str "Carry " ++ marker) [str "B"] in
  let ha := [(str "Carry", [(1%Z, [str "A"]); (2%Z, [str "C"])])] in
  let ha' := [(str "Carry", [(1%Z, [str "B"]); (2%Z, [str "C"])])] in
  get Z.eqb (bylevel_of ha' (str "Carry")) 2%Z
  = get Z.eqb (bylevel_of ha (str "Carry")) 2%Z.
Proof.
  intros h ha ha'.
  apply (proj2 (header_touches_only_its_list ha ha' h eq_refl)).
  vm_compute. discriminate.
Defined.

(** X10: after the first loop the accumulator holds the roles of the page in
    the order they are first met, under each role its levels in the order
    they are first met, and under each level the heroes linked from the
    last header cell of that role and level. *)
Theorem accumulator_is_in_first_seen_order :
  forall (page : soup) (ha : attributes),
    collect page = Ok ha ->
    keys ha = roles page
    /\ forall r, keys (bylevel_of ha r) = levels_of page r
                 /\ forall l, get Z.eqb (bylevel_of ha r) l = listed page r l.
Proof.
  intros page ha Hc. destruct (collect_spec page ha Hc) as [Hk [_ Hl]].
  split; [exact Hk | exact Hl].
Qed.

Lemma accumulator_is_in_first_seen_order_witness :
  let page := [header (str "B " ++ marker) [str "x"];
               header (str "A " ++ marker ++ marker) [str "y"];
               header (str "B " ++ marker ++ marker) [str "z"]] in
  keys [(str "B", [(1%Z, [str "x"]); (2%Z, [str "z"])]);
        (str "A", [(2%Z, [str "y"])])]
  = roles page.
Proof.
  intros page.
  apply (proj1 (accumulator_is_in_first_seen_order page
                  [(str "B", [(1%Z, [str "x"]); (2%Z, [str "z"])]);
                   (str "A", [(2%Z, [str "y"])])]
                  eq_refl)).
Defined.

Lemma In_keys_filled (page : soup) (ha : attributes) (row : dfrow) (c : pystr) :
  collect page = Ok ha ->
  row_ok (associations ha) row ->
  (In c (keys (fill_row (roles page) row)) <-> c = Hero \/ In c (roles page)).
Proof.
  intros Hc [H1 [H2 _]]. destruct (collect_spec page ha Hc) as [Hk _].
  rewrite keys_fill_row by apply (NoDup_first_seen str_eqb_eq).
  rewrite in_app_iff, filter_In. split.
  - intros [Hin|[Hin _]]; [|right; assumption].
    destruct (H2 c Hin) as [?|[l [h Ht]]]; [left; assumption|]. right.
    apply In_associations in Ht. destruct Ht as [b [hs [Hb _]]].
    rewrite <- Hk. change c with (fst (c, b)). apply in_map; assumption.
  - intros [->|Hin].
    + left. destruct (get str_eqb row Hero) as [v|] eqn:E; [|contradiction].
      eapply get_Some_In; [apply str_eqb_eq | eassumption].
    + destruct (contains str_eqb row c) eqn:E.
      * left. apply (contains_In str_eqb_eq); assumption.
      * right. auto.
Qed.

Lemma In_columns_frame (page : soup) (ha : attributes) (rows : list dfrow)
      (c : pystr) :
  collect page = Ok ha ->
  Forall (row_ok (associations ha)) rows ->
  rows <> [] ->
  (In c (columns (mkDataFrame (List.map (fill_row (roles page)) rows)))
   <-> c = Hero \/ In c (roles page)).
Proof.
  intros Hc Hok Hne. cbn [mkDataFrame columns].
  rewrite fast_unique_first_seen, (In_first_seen str_eqb_eq), in_flat_map.
  rewrite Forall_forall in Hok. split.
  - intros [row' [Hrow' Hin]]. apply in_map_iff in Hrow'.
    destruct Hrow' as [row [<- Hrow]].
    apply (In_keys_filled page ha row c Hc (Hok row Hrow)). assumption.
  - intros H. destruct rows as [|row rows]; [congruence|].
    exists (fill_row (roles page) row). split; [left; reflexivity|].
    apply (In_keys_filled page ha row c Hc); [apply Hok; left; reflexivity | assumption].
Qed.

(** X11: the columns of the frame are pairwise distinct. As soon as the frame
    has a row they are the hero column and the roles of the page, every
    role once, also a role whose data cells link nobody; without a row the
    frame has no column at all. *)
Theorem frame_columns_are_hero_and_roles :
  forall (page : soup) (frame : DataFrame),
    df page = Ok frame ->
    NoDup (columns frame)
    /\ (values frame = [] -> columns frame = [])
    /\ (values frame <> [] ->
        forall c, In c (columns frame) <-> c = Hero \/ In c (roles page)).
Proof.
  intros page frame Hdf.
  destruct (df_spec page frame Hdf) as [ha [rows [Hc [_ [Hok ->]]]]].
  split; [|split].
  - cbn [mkDataFrame columns]. rewrite fast_unique_first_seen.
    apply (NoDup_first_seen str_eqb_eq).
  - cbn [mkDataFrame values columns]. intros E. apply map_eq_nil in E.
    apply map_eq_nil in E. subst rows. reflexivity.
  - intros Hne c. apply (In_columns_frame page ha rows c Hc Hok).
    intros ->. apply Hne. reflexivity.
Qed.

Lemma frame_columns_are_hero_and_roles_witness :
  let page := [header (str "Carry " ++ marker) [str "A"];
               header (str "Support " ++ marker) []] in
  let frame := {| columns := [Hero; str "Carry"; str "Support"];
                  values := [[Some (VStr (str "A")); Some (VInt 1);
                              Some (VInt 0)]] |} in
  In (str "Support") (columns frame).
Proof.
  intros page frame.
  apply (proj2 (proj2 (frame_columns_are_hero_and_roles page frame eq_refl))).
  - discriminate.
  - right. vm_compute. auto.
Defined.

(** X12: the frame has no missing value: every row has as many cells as there
    are columns and holds a value in each. *)
Theorem frame_has_no_missing_cell :
  forall (page : soup) (frame : DataFrame) (line : list (option value))
         (c : pystr),
    df page = Ok frame ->
    In line (values frame) ->
    In c (columns frame) ->
    List.length line = List.length (columns frame)
    /\ exists v, loc frame line c = Some (Some v).
Proof.
  intros page frame line c Hdf Hline Hcol.
  destruct (line_of_frame page frame line Hdf Hline)
    as [ha [rows [row [Hc [Hok [Hrow [-> ->]]]]]]].
  split; [apply length_map|].
  assert (Hne : rows <> []) by (intros ->; contradiction).
  apply (In_columns_frame page ha rows c Hc Hok Hne) in Hcol.
  rewrite Forall_forall in Hok.
  apply (In_keys_filled page ha row c Hc (Hok row Hrow)) in Hcol.
  destruct (get str_eqb (fill_row (roles page) row) c) as [v|] eqn:E.
  - exists v. apply loc_mkDataFrame; [apply in_map; assumption | exact E].
  - exfalso. apply (get_None_notin str_eqb_eq) in E. contradiction.
Qed.

Lemma frame_has_no_missing_cell_witness :
  let page := [header (str "Carry " ++ marker) [str "A"];
               header (str "Support " ++ marker) [str "B"]] in
  let line := [Some (VStr (str "B")); Some (VInt 0); Some (VInt 1)] in
  let frame :=
    {| columns := [Hero; str "Carry"; str "Support"];
       values := [[Some (VStr (str "A")); Some (VInt 1); Some (VInt 0)]; line] |} in
  exists v, loc frame line (str "Carry") = Some (Some v).
Proof.
  intros page line frame.
  apply (proj2 (frame_has_no_missing_cell page frame line (str "Carry") eq_refl
                  (or_intror (or_introl eq_refl))
                  (or_intror (or_introl eq_refl)))).
Defined.

(** X13: a level shown for a hero is never made up: in the row of a hero, the
    cell of a role column other than "Hero" is an integer, and it is either
    0 or the level of the last header cell of that role and level, whose
    data cell links the hero. *)
Theorem levels_come_from_the_page :
  forall (page : soup) (frame : DataFrame) (line : list (option value))
         (hero c : pystr) (v : value),
    df page = Ok frame ->
    In line (values frame) ->
    loc frame line Hero = Some (Some (VStr hero)) ->
    c <> Hero ->
    loc frame line c = Some (Some v) ->
    exists l, v = VInt l
              /\ (l = 0%Z
                  \/ exists h, last_header page c l = Some h /\ links h hero).
Proof.
  intros page frame line hero c v Hdf Hline Hname Hn Hcell.
  destruct (line_of_frame page frame line Hdf Hline)
    as [ha [rows [row [Hc [Hok [Hrow [-> ->]]]]]]].
  rewrite Forall_forall in Hok. specialize (Hok row Hrow).
  apply loc_mkDataFrame_inv in Hname. apply loc_mkDataFrame_inv in Hcell.
  apply (name_of_filled _ _ _ _ Hok) in Hname.
  rewrite get_fill_row in Hcell.
  destruct (get str_eqb row c) as [v'|] eqn:Ev.
  - inversion Hcell; subst v'. destruct Hok as [_ [_ H3]].
    destruct (H3 hero Hname c v Hn Ev) as [l [-> Hin]].
    exists l. split; [reflexivity|]. right.
    apply (associations_listed page ha c l hero Hc) in Hin.
    destruct Hin as [hs [H1 H2]]. exact (listed_links page c l hs hero H1 H2).
  - destruct (existsb _ _); [|discriminate]. inversion Hcell.
    exists 0%Z. auto.
Qed.

Lemma levels_come_from_the_page_witness :
  let page := [header (str "Carry " ++ marker ++ marker) [str "A"]] in
  let line := [Some (VStr (str "A")); Some (VInt 2)] in
  let frame := {| columns := [Hero; str "Carry"]; values := [line] |} in
  exists l, VInt 2 = VInt l
            /\ (l = 0%Z
                \/ exists h, last_header page (str "Carry") l = Some h
                             /\ links h (str "A")).
Proof.
  intros page line frame.
  apply (levels_come_from_the_page page frame line (str "A") (str "Carry")
           (VInt 2) eq_refl (or_introl eq_refl) eq_refl).
  - vm_compute. discriminate.
  - reflexivity.
Defined.

Lemma names_of_lines (P : list (pystr * Z * pystr)) (roles : list pystr)
      (rows : list dfrow) :
  forall (part : list dfrow) (hs : list pystr),
    Forall2 (row_of P) part hs ->
    (forall row, In row part -> In row rows) ->
    let frame := mkDataFrame (List.map (fill_row roles) rows) in
    Forall2 (fun line hero => loc frame line Hero = Some (Some (VStr hero)))
            (List.map (fun row => List.map (get str_eqb (fill_row roles row))
                                           (columns frame)) part)
            hs.
Proof.
  intros part hs HF. induction HF as [|row h part hs Hrow HF IH]; intros Hsub frame.
  - constructor.
  - cbn [List.map]. constructor.
    + apply loc_mkDataFrame.
      * apply in_map, Hsub. left; reflexivity.
      * eapply get_filled_name; eassumption.
    + apply IH. intros; apply Hsub; right; assumption.
Qed.

(** X14: when no role is named "Hero" the frame has one row for each hero and
    no more: the names of its rows are pairwise distinct, and a hero has a
    row exactly when the last header cell of some role and level links
    it. *)
Theorem one_row_per_hero :
  forall (page : soup) (frame : DataFrame),
    df page = Ok frame ->
    ~ In Hero (roles page) ->
    exists names,
      NoDup names
      /\ Forall2 (fun line hero => loc frame line Hero = Some (Some (VStr hero)))
                 (values frame) names
      /\ forall hero,
           In hero names
           <-> exists r l hs, listed page r l = Some hs /\ In hero hs.
Proof.
  intros page frame Hdf Hno.
  destruct (named_rows page frame Hdf Hno) as [ha [rows [Hc [HF ->]]]].
  exists (heroes_in (associations ha)). split; [|split].
  - apply (NoDup_first_seen str_eqb_eq).
  - cbn [mkDataFrame values]. rewrite map_map.
    apply (names_of_lines (associations ha) (roles page) rows rows _ HF). auto.
  - intros hero. unfold heroes_in. rewrite (In_first_seen str_eqb_eq), in_map_iff.
    split.
    + intros [[[r l] h] [E Hin]]. cbn [snd] in E. subst h. exists r, l.
      apply (associations_listed page ha r l hero Hc). assumption.
    + intros [r [l Hl]]. exists (r, l, hero). split; [reflexivity|].
      apply (associations_listed page ha r l hero Hc). assumption.
Qed.

Lemma one_row_per_hero_witness :
  let page := [header (str "Carry " ++ marker) [str "A"; str "B"];
               header (str "Support " ++ marker) [str "B"; str "A"; str "B"]] in
  let frame :=
    {| columns := [Hero; str "Carry"; str "Support"];
       values := [[Some (VStr (str "A")); Some (VInt 1); Some (VInt 1)];
                  [Some (VStr (str "B")); Some (VInt 1); Some (VInt 1)]] |} in
  exists names,
    NoDup names
    /\ Forall2 (fun line hero => loc frame line Hero = Some (Some (VStr hero)))
               (values frame) names.
Proof.
  intros page frame.
  destruct (one_row_per_hero page frame) as [names [H1 [H2 _]]].
  - vm_compute; reflexivity.
  - vm_compute. intros [H|[H|[]]]; discriminate H.
  - exists names. split; assumption.
Defined.

Lemma fill_row_keeps (totalrolelist : list pystr) (row : dfrow) (k : pystr)
      (v : value) :
  get str_eqb row k = Some v -> get str_eqb (fill_row totalrolelist row) k = Some v.
Proof. intros H. rewrite get_fill_row, H. reflexivity. Qed.

Lemma fill_row_done (totalrolelist : list pystr) :
  forall row,
    (forall r, In r totalrolelist -> contains str_eqb row r = true) ->
    fill_row totalrolelist row = row.
Proof.
  induction totalrolelist as [|r roles IH]; intros row H; [reflexivity|].
  cbn [fill_row fold_left]. fold (fill_row roles).
  rewrite (H r) by (left; reflexivity).
  apply IH. intros; apply H; right; assumption.
Qed.

Lemma fill_row_twice (totalrolelist : list pystr) (row : dfrow) :
  fill_row totalrolelist (fill_row totalrolelist row) = fill_row totalrolelist row.
Proof.
  apply fill_row_done. intros r Hr. unfold contains. rewrite get_fill_row.
  destruct (get str_eqb row r); [reflexivity|].
  rewrite (proj2 (existsb_eqb_In str_eqb_eq r _)); [reflexivity | assumption].
Qed.

Lemma Forall2_map_r {A B : Type} (R : A -> B -> Prop) (f : A -> B) (l : list A) :
  (forall x, R x (f x)) -> Forall2 R l (List.map f l).
Proof. intros H. induction l; cbn [List.map]; constructor; auto. Qed.

(** X15: the zero fill writes only where a row has no entry: row by row, every
    entry the pivot wrote is still there with its value, every role of
    [totalrolelist] has an entry afterwards, and filling a second time
    changes nothing. *)
Theorem zero_fill_keeps_what_is_there :
  forall (totalrolelist : list pystr) (dfheroattributes : list dfrow),
    Forall2 (fun row filled =>
               (forall k v, get str_eqb row k = Some v ->
                            get str_eqb filled k = Some v)
               /\ (forall r, In r totalrolelist ->
                             get str_eqb row r = None ->
                             get str_eqb filled r = Some (VInt 0)))
            dfheroattributes (fill_zero totalrolelist dfheroattributes)
    /\ fill_zero totalrolelist (fill_zero totalrolelist dfheroattributes)
       = fill_zero totalrolelist dfheroattributes.
Proof.
  intros roles rows. rewrite !fill_zero_map. split.
  - apply Forall2_map_r. intros row. split.
    + intros k v. apply fill_row_keeps.
    + intros r Hr Hnone. rewrite get_fill_row, Hnone.
      rewrite (proj2 (existsb_eqb_In str_eqb_eq r _)); [reflexivity | assumption].
  - rewrite map_map. apply map_ext. intros row. apply fill_row_twice.
Qed.

Lemma In_lstrip (x : N) (s : pystr) : In x (lstrip s) -> In x s.
Proof.
  destruct (lstrip_split s) as [lead [E _]]. intros H. rewrite E.
  apply in_or_app. right; assumption.
Qed.

Lemma In_rstrip (x : N) (s : pystr) : In x (rstrip s) -> In x s.
Proof.
  destruct (rstrip_split s) as [trail [E _]]. intros H. rewrite E.
  apply in_or_app. left; assumption.
Qed.

Lemma str_strip_twice (s : pystr) : str_strip (str_strip s) = str_strip s.
Proof.
  unfold str_strip at 1.
  rewrite (lstrip_idem (str_strip s)) by (apply rstrip_head, lstrip_head).
  unfold rstrip at 1. rewrite lstrip_idem by apply rstrip_last.
  apply rev_involutive.
Qed.

Lemma role_of_eq (s : pystr) : role_of s = str_strip (remove N.eq_dec 9632%N s).
Proof.
  unfold role_of, marker, str_replace. rewrite replace_marker. reflexivity.
Qed.

Lemma level_of_eq (s : pystr) :
  level_of s = Z.of_nat (count_occ N.eq_dec s 9632%N).
Proof. unfold level_of, marker, str_count. apply count_marker. Qed.

(** X16: a role name holds no marker and no whitespace at either end, so it
    reads back as itself: taken as the text of a header cell it gives the
    same role, at level 0. *)
Theorem role_reads_back_as_itself :
  forall rolestring : pystr,
    ~ In 9632%N (role_of rolestring)
    /\ role_of (role_of rolestring) = role_of rolestring
    /\ level_of (role_of rolestring) = 0%Z.
Proof.
  intros s.
  assert (Hno : ~ In 9632%N (role_of s)).
  { rewrite role_of_eq. unfold str_strip. intros H.
    apply In_rstrip, In_lstrip in H. exact (remove_In N.eq_dec s 9632%N H). }
  split; [exact Hno|]. split.
  - rewrite (role_of_eq (role_of s)), (notin_remove N.eq_dec _ _ Hno).
    rewrite role_of_eq. apply str_strip_twice.
  - rewrite level_of_eq.
    rewrite (proj1 (count_occ_not_In N.eq_dec _ _) Hno). reflexivity.
Qed.

(** X17: the level of a header cell lies between 0 and the number of characters
    of its text, whatever the text: the script sets no upper bound such as
    5. It is 0 exactly when the text holds no marker, and the text is as
    long as the text without markers and the level together. *)
Theorem level_is_bounded_by_the_text :
  forall rolestring : pystr,
    (0 <= level_of rolestring <= Z.of_nat (List.length rolestring))%Z
    /\ (level_of rolestring = 0%Z <-> ~ In 9632%N rolestring)
    /\ (Z.of_nat (List.length (str_replace rolestring marker []))
        + level_of rolestring
        = Z.of_nat (List.length rolestring))%Z.
Proof.
  intros s. rewrite level_of_eq. split; [|split].
  - pose proof (count_occ_bound N.eq_dec 9632%N s). lia.
  - rewrite (count_occ_not_In N.eq_dec). lia.
  - unfold marker, str_replace. rewrite replace_marker.
    induction s as [|c s IH]; [reflexivity|]. cbn [remove count_occ List.length].
    destruct (N.eq_dec 9632 c) as [<-|Hn].
    + destruct (N.eq_dec 9632 9632); [|congruence]. lia.
    + destruct (N.eq_dec c 9632); [congruence|]. cbn [List.length]. lia.
Qed.
